(** * HeyGen MCP server: a shallow embedding of [heygen_mcp/server.py]

    The tool functions of the server are embedded as computations in a small
    state-and-exception monad over an explicit [World]: the module global
    [api_client], the process environment, the local file system, the clock
    and the state of the remote service.  Python exceptions are values that
    travel with the state, so that effects performed before a [raise] are
    still visible after the [except] clause has run. *)

From Stdlib Require Import ZArith Ascii String.
From stdpp Require Import base tactics option list strings gmap.

Local Open Scope string_scope.

(** ** Python values: exceptions, outcomes, truthiness *)

Module Py.

(** An instance of a subclass of [Exception], which is what the clause
    [except Exception as e] of every tool catches: its class name and the
    text [str(e)] evaluates to.  Signals that derive from [BaseException]
    only (cancellation of the task, interpreter exit) are not modelled. *)
Record Exc := mkExc { exc_class : string; exc_str : string }.

Definition str (e : Exc) : string := exc_str e.

Definition ValueError (msg : string) : Exc := mkExc "ValueError" msg.
Definition FileExistsError (msg : string) : Exc := mkExc "FileExistsError" msg.
Definition FileNotFoundError (msg : string) : Exc := mkExc "FileNotFoundError" msg.
Definition NotADirectoryError (msg : string) : Exc := mkExc "NotADirectoryError" msg.
Definition IsADirectoryError (msg : string) : Exc := mkExc "IsADirectoryError" msg.
Definition UnboundLocalError (msg : string) : Exc := mkExc "UnboundLocalError" msg.

(** What running a piece of code ends with: a value, or a raised exception. *)
Inductive outcome (A : Type) : Type :=
| Return (a : A)
| Raise (e : Exc).
Arguments Return {A} a.
Arguments Raise {A} e.

(** [bool(x)] for an [Optional[str]]: [None] and the empty string are falsy. *)
Definition truthy (x : option string) : bool :=
  match x with
  | Some (String _ _) => true
  | _ => false
  end.

End Py.
Export Py.

(** ** The monad: state passing with exceptions that keep the state *)

Definition M (W A : Type) : Type := W -> outcome A * W.

Definition ret {W A} (a : A) : M W A := fun w => (Return a, w).

Definition raise {W A} (e : Exc) : M W A := fun w => (Raise e, w).

Definition bind {W A B} (c : M W A) (k : A -> M W B) : M W B :=
  fun w =>
    match c w with
    | (Return a, w') => k a w'
    | (Raise e, w') => (Raise e, w')
    end.

(** [try: c  except Exception as e: h e] *)
Definition try_except {W A} (c : M W A) (h : Exc -> M W A) : M W A :=
  fun w =>
    match c w with
    | (Return a, w') => (Return a, w')
    | (Raise e, w') => h e w'
    end.

Declare Scope py_scope.
Delimit Scope py_scope with py.
Notation "x <- c ;; k" := (bind c (fun x => k))
  (at level 100, c at next level, right associativity) : py_scope.
Notation "c ;;; k" := (bind c (fun _ => k))
  (at level 100, right associativity) : py_scope.
Local Open Scope py_scope.

(** ** [pathlib.PurePosixPath] *)

Module Pathlib.

Definition slash : ascii := "/"%char.

(** [s.split("/")] *)
Fixpoint split_slash (s : string) : list string :=
  match s with
  | EmptyString => [EmptyString]
  | String c s' =>
      if Ascii.eqb c slash then EmptyString :: split_slash s'
      else match split_slash s' with
           | [] => [String c EmptyString]
           | h :: t => String c h :: t
           end
  end.

(** Components that the parser keeps: empty ones and ["."] are dropped. *)
Definition keep_part (p : string) : bool :=
  negb (String.eqb p "") && negb (String.eqb p ".").

(** The root of a POSIX path: ["//"] for exactly two leading slashes,
    ["/"] for one or for three and more, [""] for a relative path. *)
Definition root_of (s : string) : string :=
  match s with
  | String c1 (String c2 (String c3 _)) =>
      if Ascii.eqb c1 slash then
        if Ascii.eqb c2 slash then
          if Ascii.eqb c3 slash then "/" else "//"
        else "/"
      else ""
  | String c1 (String c2 EmptyString) =>
      if Ascii.eqb c1 slash then
        if Ascii.eqb c2 slash then "//" else "/"
      else ""
  | String c1 EmptyString => if Ascii.eqb c1 slash then "/" else ""
  | EmptyString => ""
  end.

Record Path := mkPath { root : string; parts : list string }.

(** [Path(s)] *)
Definition parse (s : string) : Path :=
  mkPath (root_of s) (filter (fun p => Is_true (keep_part p)) (split_slash s)).

(** [p / s]: an absolute right operand replaces the left one. *)
Definition truediv (p : Path) (s : string) : Path :=
  let q := parse s in
  if String.eqb (root q) "" then mkPath (root p) (parts p ++ parts q)
  else q.

Fixpoint join_slash (l : list string) : string :=
  match l with
  | [] => ""
  | [x] => x
  | x :: l' => x +:+ "/" +:+ join_slash l'
  end.

(** [str(p)] *)
Definition to_str (p : Path) : string :=
  match root p, parts p with
  | EmptyString, [] => "."
  | r, l => r +:+ join_slash l
  end.

(** [p.name] *)
Definition name (p : Path) : string := List.last (parts p) "".

(** [p.parent] *)
Definition parent (p : Path) : Path := mkPath (root p) (removelast (parts p)).

Definition no_slash (s : string) : bool :=
  forallb (fun c => negb (Ascii.eqb c slash)) (list_ascii_of_string s).

End Pathlib.

(** ** The local file system *)

Module Fs.
Import Pathlib.

(** A location is the list of components below the root; symbolic links
    are not modelled. *)
Record FileSystem := mkFs {
  cwd : list string;
  dirs : gset (list string);
  files : gmap (list string) (list Byte.byte)
}.

Definition is_dir (fs : FileSystem) (loc : list string) : bool :=
  bool_decide (loc = [] ∨ loc ∈ dirs fs).

Definition is_file (fs : FileSystem) (loc : list string) : bool :=
  bool_decide (is_Some (files fs !! loc)).

Definition walk (acc : list string) (c : string) : list string :=
  if String.eqb c ".." then removelast acc else acc ++ [c].

(** [p.resolve()], as a location *)
Definition resolve (fs : FileSystem) (p : Path) : list string :=
  fold_left walk (parts p) (if String.eqb (root p) "" then cwd fs else []).

Definition loc_str (loc : list string) : string := "/" +:+ join_slash loc.

Definition quoted (p : Path) : string := "'" +:+ to_str p +:+ "'".

(** [p.mkdir(exist_ok=True)]: the parent has to be a directory already. *)
Definition mkdir_exist_ok (p : Path) (fs : FileSystem) : outcome unit * FileSystem :=
  let loc := resolve fs p in
  if is_dir fs loc then (Return tt, fs)
  else if is_file fs loc then
    (Raise (FileExistsError ("[Errno 17] File exists: " +:+ quoted p)), fs)
  else if is_dir fs (removelast loc) then
    (Return tt, mkFs (cwd fs) ({[loc]} ∪ dirs fs) (files fs))
  else if is_file fs (removelast loc) then
    (Raise (NotADirectoryError ("[Errno 20] Not a directory: " +:+ quoted p)), fs)
  else
    (Raise (FileNotFoundError ("[Errno 2] No such file or directory: " +:+ quoted p)), fs).

Definition shown (loc : list string) : string := "'" +:+ loc_str loc +:+ "'".

(** [open(p, "wb")] for [p] at location [loc], followed by writing [data]
    and closing. *)
Definition write_file (loc : list string) (data : list Byte.byte) (fs : FileSystem)
  : outcome unit * FileSystem :=
  if is_dir fs loc then
    (Raise (IsADirectoryError ("[Errno 21] Is a directory: " +:+ shown loc)), fs)
  else if is_dir fs (removelast loc) then
    (Return tt, mkFs (cwd fs) (dirs fs) (<[loc := data]> (files fs)))
  else if is_file fs (removelast loc) then
    (Raise (NotADirectoryError ("[Errno 20] Not a directory: " +:+ shown loc)), fs)
  else
    (Raise (FileNotFoundError ("[Errno 2] No such file or directory: " +:+ shown loc)), fs).

End Fs.

(** ** [datetime] *)

Module Datetime.

Record datetime := mkDatetime {
  year : nat; month : nat; day : nat;
  hour : nat; minute : nat; second : nat
}.

(** The ranges a [datetime] object keeps its fields in; the year is at
    most 9999. *)
Definition valid (t : datetime) : bool :=
  ((1 <=? year t) && (year t <? 100 * 100) &&
   (1 <=? month t) && (month t <=? 12) &&
   (1 <=? day t) && (day t <=? 31) &&
   (hour t <=? 23) && (minute t <=? 59) && (second t <=? 59))%nat.

Definition digit (n : nat) : ascii := ascii_of_nat (48 + n mod 10).

(** The [w] lowest decimal digits of [n], most significant first: the
    zero-padded decimal of [n] whenever [n < 10 ^ w]. *)
Fixpoint digits (w n : nat) : list ascii :=
  match w with
  | O => []
  | S w' => digits w' (n / 10) ++ [digit n]
  end.

(** [t.strftime("%Y%m%d_%H%M%S")] *)
Definition strftime_Ymd_HMS (t : datetime) : string :=
  string_of_list_ascii
    (digits 4 (year t) ++ digits 2 (month t) ++ digits 2 (day t)
       ++ ["_"%char]
       ++ digits 2 (hour t) ++ digits 2 (minute t) ++ digits 2 (second t)).

Definition is_digit (c : ascii) : bool :=
  ((48 <=? nat_of_ascii c) && (nat_of_ascii c <=? 57))%nat.

(** Eight digits, an underscore, six digits. *)
Definition Ymd_HMS_shape (s : string) : bool :=
  let cs := list_ascii_of_string s in
  forallb is_digit (take 8 cs)
  && match drop 8 cs with
     | u :: rest =>
         Ascii.eqb u "_" && forallb is_digit rest && Nat.eqb (length rest) 6
     | [] => false
     end.

(** The pattern as the specification words it: fourteen digits, then an
    underscore, the job id and the extension. *)
Definition fourteen_digit_pattern (job_id file_name : string) : bool :=
  let cs := list_ascii_of_string file_name in
  forallb is_digit (take 14 cs)
  && Nat.eqb (length (take 14 cs)) 14
  && String.eqb (string_of_list_ascii (drop 14 cs)) ("_" +:+ job_id +:+ ".mp4").

End Datetime.

(** ** What [server.py] imports from [heygen_mcp.api_client] and [mcp] *)

Module ApiClient.

(** Modelled from the spec: the request models of [heygen_mcp.api_client],
    whose class declarations are not part of the sources at hand: a title, a
    list of input segments (a character referenced by avatar id, a voice
    referenced by voice id with the spoken text) and the output dimensions.
    The fields are the keyword arguments [create_video] passes. *)
Record Character := mkCharacter { avatar_id : option string }.
Record Voice := mkVoice { input_text : string; voice_id : option string }.
Record VideoInput := mkVideoInput { character : Character; voice : Voice }.
Record Dimension := mkDimension { width : Z; height : Z }.
Record VideoGenerateRequest := mkVideoGenerateRequest {
  title : string;
  video_inputs : list VideoInput;
  dimension : Dimension
}.

(** [mcp.server.models.Resource], built from one positional argument. *)
Record Resource := mkResource { resource_arg : string }.

(** Modelled from the spec: the response models of [heygen_mcp.api_client]
    (class declarations absent): each carries success fields or an error
    string, and every field left out of a constructor call is [None].  The
    fields of the two video responses are those [server.py] reads and
    writes. *)
Record Response (P : Type) := mkResponse {
  payload : option P;
  error : option string
}.
Arguments mkResponse {P} payload error.
Arguments payload {P} r.
Arguments error {P} r.

Record MCPVideoStatusResponse := mkStatus {
  st_video_id : option string;
  st_status : option string;
  st_video_url : option string;
  st_error : option string
}.

Record MCPVideoGenerateResponse := mkGenerate {
  gen_video_id : option string;
  gen_status : option string;
  gen_video_url : option string;
  gen_download_path : option string;
  gen_resource : option Resource;
  gen_error : option string
}.

(** A [HeyGenApiClient] object: the key it was built with and its identity. *)
Record HeyGenApiClient := mkClient { client_oid : nat; client_api_key : string }.

(** The methods of [HeyGenApiClient] and the constructor of [Resource] are
    code that is not at hand: they are parameters.  Their types record what
    each may touch: every method talks to the remote service, and only
    [download_video] also touches the local file system. *)
Class Deps := {
  Remote : Type;
  Credits : Type;
  Voices : Type;
  AvatarGroups : Type;
  Avatars : Type;
  (** [HeyGenApiClient.__init__]: [None] when it returns normally *)
  client_init : string -> option Exc;
  get_remaining_credits :
    HeyGenApiClient -> Remote -> outcome (Response Credits) * Remote;
  get_voices :
    HeyGenApiClient -> Remote -> outcome (Response Voices) * Remote;
  list_avatar_groups :
    HeyGenApiClient -> bool -> Remote -> outcome (Response AvatarGroups) * Remote;
  get_avatars_in_group :
    HeyGenApiClient -> string -> Remote -> outcome (Response Avatars) * Remote;
  generate_avatar_video :
    HeyGenApiClient -> VideoGenerateRequest -> Remote
    -> outcome MCPVideoGenerateResponse * Remote;
  get_video_status :
    HeyGenApiClient -> string -> Remote -> outcome MCPVideoStatusResponse * Remote;
  wait_for_video_completion :
    HeyGenApiClient -> string -> Z -> Z -> Remote
    -> outcome MCPVideoStatusResponse * Remote;
  download_video :
    HeyGenApiClient -> string -> string -> Remote * Fs.FileSystem
    -> outcome string * (Remote * Fs.FileSystem);
  (** [Resource.__init__]: [None] when it returns normally *)
  resource_init : string -> option Exc
}.

(** The method calls the server makes on its client, as logged. *)
Inductive Call :=
| CGetRemainingCredits
| CGetVoices
| CListAvatarGroups (include_public : bool)
| CGetAvatarsInGroup (group_id : string)
| CGenerateAvatarVideo (request : VideoGenerateRequest)
| CGetVideoStatus (video_id : string)
| CWaitForVideoCompletion (video_id : string) (max_attempts delay_seconds : Z)
| CDownloadVideo (video_url download_path : string).

End ApiClient.

(** ** The world the server runs in *)

Module Server.
Import Pathlib Fs Datetime ApiClient.

Inductive Event :=
| EvGetenv (name : string)
| EvNewClient (c : HeyGenApiClient)
| EvCall (c : HeyGenApiClient) (m : Call)
| EvMkdir (p : Path).

Section WithDeps.
Context {deps : Deps}.

Record World := mkWorld {
  api_client : option HeyGenApiClient;   (* the module global *)
  environ : gmap string string;          (* os.environ *)
  next_oid : nat;                        (* identity of the next object *)
  remote : Remote;
  fs : FileSystem;
  tempdir : string;                      (* tempfile.gettempdir() *)
  clock : datetime;                      (* datetime.now() *)
  trace : list Event
}.

Definition set_api_client (c : option HeyGenApiClient) (w : World) : World :=
  mkWorld c (environ w) (next_oid w) (remote w) (fs w)
          (tempdir w) (clock w) (trace w).

Definition set_next_oid (n : nat) (w : World) : World :=
  mkWorld (api_client w) (environ w) n (remote w) (fs w)
          (tempdir w) (clock w) (trace w).

Definition set_environ (e : gmap string string) (w : World) : World :=
  mkWorld (api_client w) e (next_oid w) (remote w) (fs w)
          (tempdir w) (clock w) (trace w).

Definition set_clock (t : datetime) (w : World) : World :=
  mkWorld (api_client w) (environ w) (next_oid w) (remote w) (fs w)
          (tempdir w) t (trace w).

Definition set_remote (r : Remote) (w : World) : World :=
  mkWorld (api_client w) (environ w) (next_oid w) r (fs w)
          (tempdir w) (clock w) (trace w).

Definition set_fs (f : FileSystem) (w : World) : World :=
  mkWorld (api_client w) (environ w) (next_oid w) (remote w) f
          (tempdir w) (clock w) (trace w).

Definition log (e : Event) : M World unit :=
  fun w => (Return tt,
            mkWorld (api_client w) (environ w) (next_oid w) (remote w) (fs w)
                    (tempdir w) (clock w) (trace w ++ [e])).

Definition on_remote {A} (f : Remote -> outcome A * Remote) : M World A :=
  fun w => let '(o, r) := f (remote w) in (o, set_remote r w).

Definition on_remote_fs {A}
    (f : Remote * FileSystem -> outcome A * (Remote * FileSystem)) : M World A :=
  fun w => let '(o, (r, f')) := f (remote w, fs w) in (o, set_fs f' (set_remote r w)).

Definition on_fs {A} (f : FileSystem -> outcome A * FileSystem) : M World A :=
  fun w => let '(o, f') := f (fs w) in (o, set_fs f' w).

(** [os.getenv(name)] *)
Definition getenv (name : string) : M World (option string) :=
  log (EvGetenv name);;;
  fun w => (Return (environ w !! name), w).

(** [HeyGenApiClient(api_key)]: a new object when [__init__] returns *)
Definition new_client (api_key : string) : M World HeyGenApiClient :=
  match client_init api_key with
  | Some e => raise e
  | None =>
      c <- (fun w => (Return (mkClient (next_oid w) api_key),
                      set_next_oid (S (next_oid w)) w));;
      log (EvNewClient c);;;
      ret c
  end.

(** *** Client methods, as the server calls them *)

Definition call_get_remaining_credits (c : HeyGenApiClient) : M World (Response Credits) :=
  log (EvCall c CGetRemainingCredits);;;
  on_remote (get_remaining_credits c).

Definition call_get_voices (c : HeyGenApiClient) : M World (Response Voices) :=
  log (EvCall c CGetVoices);;;
  on_remote (get_voices c).

Definition call_list_avatar_groups (c : HeyGenApiClient) (include_public : bool)
  : M World (Response AvatarGroups) :=
  log (EvCall c (CListAvatarGroups include_public));;;
  on_remote (ApiClient.list_avatar_groups c include_public).

Definition call_get_avatars_in_group (c : HeyGenApiClient) (group_id : string)
  : M World (Response Avatars) :=
  log (EvCall c (CGetAvatarsInGroup group_id));;;
  on_remote (get_avatars_in_group c group_id).

Definition call_generate_avatar_video (c : HeyGenApiClient) (request : VideoGenerateRequest)
  : M World MCPVideoGenerateResponse :=
  log (EvCall c (CGenerateAvatarVideo request));;;
  on_remote (generate_avatar_video c request).

Definition call_get_video_status (c : HeyGenApiClient) (video_id : string)
  : M World MCPVideoStatusResponse :=
  log (EvCall c (CGetVideoStatus video_id));;;
  on_remote (get_video_status c video_id).

Definition call_wait_for_video_completion (c : HeyGenApiClient) (video_id : string)
    (max_attempts delay_seconds : Z) : M World MCPVideoStatusResponse :=
  log (EvCall c (CWaitForVideoCompletion video_id max_attempts delay_seconds));;;
  on_remote (wait_for_video_completion c video_id max_attempts delay_seconds).

Definition call_download_video (c : HeyGenApiClient) (video_url download_path : string)
  : M World string :=
  log (EvCall c (CDownloadVideo video_url download_path));;;
  on_remote_fs (ApiClient.download_video c video_url download_path).

(** [Resource(file_path)] *)
Definition new_resource (file_path : string) : M World Resource :=
  match resource_init file_path with
  | Some e => raise e
  | None => ret (mkResource file_path)
  end.

Definition gettempdir : M World string := fun w => (Return (tempdir w), w).

Definition datetime_now : M World datetime := fun w => (Return (clock w), w).

Definition mkdir (p : Path) : M World unit :=
  log (EvMkdir p);;;
  on_fs (mkdir_exist_ok p).

(** *** [get_api_client] (server.py, lines 41-57) *)

Definition get_api_client : M World HeyGenApiClient :=
  g <- (fun w => (Return (api_client w), w));;
  match g with
  | Some c => ret c
  | None =>
      api_key <- getenv "HEYGEN_API_KEY";;
      if negb (truthy api_key) then
        raise (ValueError "HEYGEN_API_KEY environment variable not set.")
      else
        c <- new_client (default "" api_key);;
        (fun w => (Return tt, set_api_client (Some c) w));;;
        ret c
  end.

(** *** The tools (server.py, lines 65-231): for each one the code inside
    its [try], and the tool itself with the [except] clause *)

Definition error_response {P} (msg : string) : Response P :=
  mkResponse None (Some msg).

Definition status_error (msg : string) : MCPVideoStatusResponse :=
  mkStatus None None None (Some msg).

Definition generate_error (msg : string) : MCPVideoGenerateResponse :=
  mkGenerate None None None None None (Some msg).

Definition account_credits_body : M World (Response Credits) :=
  client <- get_api_client;;
  call_get_remaining_credits client.

Definition account_credits : M World (Response Credits) :=
  try_except account_credits_body (fun e => ret (error_response (str e))).

Definition list_available_voices_body : M World (Response Voices) :=
  client <- get_api_client;;
  call_get_voices client.

Definition list_available_voices : M World (Response Voices) :=
  try_except list_available_voices_body (fun e => ret (error_response (str e))).

Definition list_avatar_groups_body (include_public : bool)
  : M World (Response AvatarGroups) :=
  client <- get_api_client;;
  call_list_avatar_groups client include_public.

Definition list_avatar_groups (include_public : bool) : M World (Response AvatarGroups) :=
  try_except (list_avatar_groups_body include_public)
             (fun e => ret (error_response (str e))).

Definition list_avatars_in_group_body (group_id : string) : M World (Response Avatars) :=
  client <- get_api_client;;
  call_get_avatars_in_group client group_id.

Definition list_avatars_in_group (group_id : string) : M World (Response Avatars) :=
  try_except (list_avatars_in_group_body group_id)
             (fun e => ret (error_response (str e))).

Definition build_request (input_text : string) (avatar_id voice_id : option string)
    (title : string) : VideoGenerateRequest :=
  mkVideoGenerateRequest
    title
    [ mkVideoInput (mkCharacter avatar_id) (mkVoice input_text voice_id) ]
    (mkDimension 1280 720).

Definition create_video_body (input_text : string) (avatar_id voice_id : option string)
    (title : string) : M World MCPVideoGenerateResponse :=
  let request := build_request input_text avatar_id voice_id title in
  client <- get_api_client;;
  call_generate_avatar_video client request.

Definition create_video (input_text : string) (avatar_id voice_id : option string)
    (title : string) : M World MCPVideoGenerateResponse :=
  try_except (create_video_body input_text avatar_id voice_id title)
             (fun e => ret (generate_error (str e))).

Definition check_video_status_body (video_id : string) : M World MCPVideoStatusResponse :=
  client <- get_api_client;;
  call_get_video_status client video_id.

Definition check_video_status (video_id : string) : M World MCPVideoStatusResponse :=
  try_except (check_video_status_body video_id) (fun e => ret (status_error (str e))).

Definition wait_for_video_body (video_id : string) (max_attempts delay_seconds : Z)
  : M World MCPVideoStatusResponse :=
  client <- get_api_client;;
  call_wait_for_video_completion client video_id max_attempts delay_seconds.

Definition wait_for_video (video_id : string) (max_attempts delay_seconds : Z)
  : M World MCPVideoStatusResponse :=
  try_except (wait_for_video_body video_id max_attempts delay_seconds)
             (fun e => ret (status_error (str e))).

Definition no_url_message : string :=
  "Video URL not available. Video may still be processing or failed.".

(** The path [download_video] makes up when it is given none (lines
    208-214). *)
Definition generated_path (video_id : string) : M World Path :=
  tmp <- gettempdir;;
  let temp_dir := truediv (parse tmp) "heygen_videos" in
  mkdir temp_dir;;;
  now <- datetime_now;;
  let timestamp := strftime_Ymd_HMS now in
  ret (truediv temp_dir (timestamp +:+ "_" +:+ video_id +:+ ".mp4")).

(** The same path as a function of what [generated_path] reads. *)
Definition temp_dir_of (tmp : string) : Path := truediv (parse tmp) "heygen_videos".

Definition file_name_of (now : datetime) (video_id : string) : string :=
  strftime_Ymd_HMS now +:+ "_" +:+ video_id +:+ ".mp4".

(** The destination: the given path, or a generated one when none (or an
    empty one) is given. *)
Definition destination (video_id : string) (download_path : option string)
  : M World string :=
  if negb (truthy download_path) then
    p <- generated_path video_id;;
    ret (to_str p)
  else ret (default "" download_path).

Definition download_video_body (video_id : string) (download_path : option string)
  : M World MCPVideoGenerateResponse :=
  client <- get_api_client;;
  status <- call_get_video_status client video_id;;
  if negb (truthy (st_video_url status)) then
    ret (generate_error no_url_message)
  else
    download_path <- destination video_id download_path;;
    file_path <- call_download_video client (default "" (st_video_url status)) download_path;;
    resource <- new_resource file_path;;
    ret (mkGenerate (Some video_id) (Some "downloaded") (st_video_url status)
                    (Some file_path) (Some resource) None).

Definition download_video (video_id : string) (download_path : option string)
  : M World MCPVideoGenerateResponse :=
  try_except (download_video_body video_id download_path)
             (fun e => ret (generate_error (str e))).

(** *** The tool registry *)

(** A tool invocation; an argument with a default value may be left out. *)
Inductive ToolCall :=
| AccountCredits
| ListAvailableVoices
| ListAvatarGroups (include_public : option bool)
| ListAvatarsInGroup (group_id : string)
| CreateVideo (input_text : string) (avatar_id voice_id title : option string)
| CheckVideoStatus (video_id : string)
| WaitForVideo (video_id : string) (max_attempts delay_seconds : option Z)
| DownloadVideo (video_id : string) (download_path : option string).

Inductive ToolResult :=
| RCredits (r : Response Credits)
| RVoices (r : Response Voices)
| RAvatarGroups (r : Response AvatarGroups)
| RAvatars (r : Response Avatars)
| RGenerate (r : MCPVideoGenerateResponse)
| RStatus (r : MCPVideoStatusResponse).

Definition fmap_M {A B} (f : A -> B) (c : M World A) : M World B :=
  a <- c;; ret (f a).

(** The code inside the [try] of the tool invoked. *)
Definition underlying (call : ToolCall) : M World ToolResult :=
  match call with
  | AccountCredits => fmap_M RCredits account_credits_body
  | ListAvailableVoices => fmap_M RVoices list_available_voices_body
  | ListAvatarGroups p => fmap_M RAvatarGroups (list_avatar_groups_body (default false p))
  | ListAvatarsInGroup g => fmap_M RAvatars (list_avatars_in_group_body g)
  | CreateVideo t a v ti => fmap_M RGenerate (create_video_body t a v (default "" ti))
  | CheckVideoStatus v => fmap_M RStatus (check_video_status_body v)
  | WaitForVideo v m d =>
      fmap_M RStatus (wait_for_video_body v (default 60%Z m) (default 10%Z d))
  | DownloadVideo v p => fmap_M RGenerate (download_video_body v p)
  end.

(** Invoking a tool, with the defaults of its signature filled in. *)
Definition invoke (call : ToolCall) : M World ToolResult :=
  match call with
  | AccountCredits => fmap_M RCredits account_credits
  | ListAvailableVoices => fmap_M RVoices list_available_voices
  | ListAvatarGroups p => fmap_M RAvatarGroups (list_avatar_groups (default false p))
  | ListAvatarsInGroup g => fmap_M RAvatars (list_avatars_in_group g)
  | CreateVideo t a v ti => fmap_M RGenerate (create_video t a v (default "" ti))
  | CheckVideoStatus v => fmap_M RStatus (check_video_status v)
  | WaitForVideo v m d =>
      fmap_M RStatus (wait_for_video v (default 60%Z m) (default 10%Z d))
  | DownloadVideo v p => fmap_M RGenerate (download_video v p)
  end.

(** The result type of a tool with nothing but its error field set. *)
Definition error_result (call : ToolCall) (msg : string) : ToolResult :=
  match call with
  | AccountCredits => RCredits (error_response msg)
  | ListAvailableVoices => RVoices (error_response msg)
  | ListAvatarGroups _ => RAvatarGroups (error_response msg)
  | ListAvatarsInGroup _ => RAvatars (error_response msg)
  | CreateVideo _ _ _ _ => RGenerate (generate_error msg)
  | CheckVideoStatus _ => RStatus (status_error msg)
  | WaitForVideo _ _ _ => RStatus (status_error msg)
  | DownloadVideo _ _ => RGenerate (generate_error msg)
  end.

Definition result_error (r : ToolResult) : option string :=
  match r with
  | RCredits r | RVoices r | RAvatarGroups r | RAvatars r => error r
  | RGenerate r => gen_error r
  | RStatus r => st_error r
  end.

(** What can happen between two observations of the world: a tool is
    invoked, or the environment or the clock changes. *)
Inductive step : World -> World -> Prop :=
| step_invoke (call : ToolCall) (w : World) : step w (invoke call w).2
| step_environ (e : gmap string string) (w : World) : step w (set_environ e w)
| step_clock (t : datetime) (w : World) : step w (set_clock t w).

Inductive steps : World -> World -> Prop :=
| steps_refl (w : World) : steps w w
| steps_cons (w1 w2 w3 : World) : step w1 w2 -> steps w2 w3 -> steps w1 w3.

(** A computation that leaves a client in the module global where there
    is one. *)
Definition keeps_client {A} (m : M World A) : Prop :=
  forall w c, api_client w = Some c -> api_client (m w).2 = Some c.

End WithDeps.
End Server.

(** ** The client's polling loop and binary download *)

Module SpecClient.
Import Pathlib Fs ApiClient.

(** What goes over the wire, in order: a status poll with what it brought
    back, a pause between two polls, a binary fetch. *)
Inductive WireEvent :=
| Poll (video_id : string) (observed : outcome MCPVideoStatusResponse)
| Sleep (seconds : Z)
| Fetch (url : string).

Record Wire (R : Type) := mkWire { service : R; sent : list WireEvent }.
Arguments mkWire {R} service sent.
Arguments service {R} w.
Arguments sent {R} w.

Definition polls (l : list WireEvent) : list (outcome MCPVideoStatusResponse) :=
  omap (fun e => match e with Poll _ o => Some o | _ => None end) l.

Section Client.
Context (base : Deps).
(** The binary GET of a URL: the bytes of the body, or a failure. *)
Context (fetch_url : HeyGenApiClient -> string -> @Remote base
                     -> outcome (list Byte.byte) * @Remote base).

Definition through {A} (f : @Remote base -> outcome A * @Remote base)
  : M (Wire (@Remote base)) A :=
  fun w => let '(o, r) := f (service w) in (o, mkWire r (sent w)).

Definition emit (e : WireEvent) : M (Wire (@Remote base)) unit :=
  fun w => (Return tt, mkWire (service w) (sent w ++ [e])).

(** One status poll: the [get_video_status] of the client. *)
Definition poll (c : HeyGenApiClient) (video_id : string)
  : M (Wire (@Remote base)) MCPVideoStatusResponse :=
  fun w =>
    let '(o, r) := @get_video_status base c video_id (service w) in
    (o, mkWire r (sent w ++ [Poll video_id o])).

(** A terminal status: completed or failed. *)
Definition terminal (s : MCPVideoStatusResponse) : bool :=
  match st_status s with
  | Some x => String.eqb x "completed" || String.eqb x "failed"
  | None => false
  end.

(** Modelled from the spec: the polling loop of
    [HeyGenApiClient.wait_for_video_completion], whose code is not at
    hand.  It polls at a fixed interval up to a maximum attempt count
    until the status is terminal or the attempts are exhausted, returns
    the last observed status either way, and does not sleep before
    returning.  [more] counts the attempts left after the coming one. *)
Fixpoint poll_loop (c : HeyGenApiClient) (video_id : string) (delay_seconds : Z)
    (more : nat) : M (Wire (@Remote base)) MCPVideoStatusResponse :=
  status <- poll c video_id;;
  if terminal status then ret status
  else match more with
       | O => ret status
       | S more' =>
           emit (Sleep delay_seconds);;;
           poll_loop c video_id delay_seconds more'
       end.

(** Modelled from the spec: [HeyGenApiClient.wait_for_video_completion].
    The spec leaves a maximum attempt count below one open; here no poll
    is made and no status can be returned. *)
Definition wait_for_video_completion_spec (c : HeyGenApiClient) (video_id : string)
    (max_attempts delay_seconds : Z) : M (Wire (@Remote base)) MCPVideoStatusResponse :=
  if (max_attempts <? 1)%Z then
    raise (UnboundLocalError "no status was observed")
  else poll_loop c video_id delay_seconds (Z.to_nat (max_attempts - 1)).

Definition add_dir (loc : list string) (fs : FileSystem) : FileSystem :=
  mkFs (cwd fs) ({[loc]} ∪ dirs fs) (files fs).

(** [mkdir(parents=True, exist_ok=True)] of the location [at ++ rest],
    where [at] is already known to be a directory. *)
Fixpoint mkdir_parents (at_ rest : list string) (fs : FileSystem)
  : outcome unit * FileSystem :=
  match rest with
  | [] => (Return tt, fs)
  | c :: rest' =>
      let loc := (at_ ++ [c])%list in
      if is_file fs loc then
        (Raise (match rest' with
                | [] => FileExistsError ("[Errno 17] File exists: " +:+ shown loc)
                | _ => NotADirectoryError ("[Errno 20] Not a directory: " +:+ shown loc)
                end), fs)
      else mkdir_parents loc rest' (if is_dir fs loc then fs else add_dir loc fs)
  end.

Definition in_fs {A} (f : FileSystem -> outcome A * FileSystem)
  : M (Wire (@Remote base) * FileSystem) A :=
  fun '(w, fs) => let '(o, fs') := f fs in (o, (w, fs')).

Definition in_wire {A} (f : M (Wire (@Remote base)) A)
  : M (Wire (@Remote base) * FileSystem) A :=
  fun '(w, fs) => let '(o, w') := f w in (o, (w', fs)).

(** Modelled from the spec: [HeyGenApiClient.download_video], whose code
    is not at hand.  It creates the parent directories of the destination
    as needed, streams the response bytes to the destination and returns
    the resolved absolute path. *)
Definition download_video_spec (c : HeyGenApiClient) (video_url download_path : string)
  : M (Wire (@Remote base) * FileSystem) string :=
  loc <- (fun '(w, fs) => (Return (resolve fs (parse download_path)), (w, fs)));;
  in_fs (mkdir_parents [] (removelast loc));;;
  in_wire (emit (Fetch video_url));;;
  data <- in_wire (through (fetch_url c video_url));;
  in_fs (write_file loc data);;;
  ret (loc_str loc).

(** The client with these two methods in place of the unknown ones; the
    other methods are those of [base]. *)
Definition spec_deps : Deps := {|
  Remote := Wire (@Remote base);
  Credits := @Credits base;
  Voices := @Voices base;
  AvatarGroups := @AvatarGroups base;
  Avatars := @Avatars base;
  client_init := @client_init base;
  get_remaining_credits c := through (@get_remaining_credits base c);
  get_voices c := through (@get_voices base c);
  list_avatar_groups c p := through (@list_avatar_groups base c p);
  get_avatars_in_group c g := through (@get_avatars_in_group base c g);
  generate_avatar_video c r := through (@generate_avatar_video base c r);
  get_video_status := poll;
  wait_for_video_completion := wait_for_video_completion_spec;
  download_video := download_video_spec;
  resource_init := @resource_init base
|}.

End Client.
End SpecClient.

(** ** A scripted remote service, for running the tools on concrete inputs *)

Module Mock.
Import Pathlib Fs Datetime ApiClient Server SpecClient.

Definition created (id : string) : MCPVideoGenerateResponse :=
  mkGenerate (Some id) (Some "created") None None None None.

Definition processing (id : string) : MCPVideoStatusResponse :=
  mkStatus (Some id) (Some "processing") None None.

Definition completed (id url : string) : MCPVideoStatusResponse :=
  mkStatus (Some id) (Some "completed") (Some url) None.

(** A service that answers the [n]-th status poll with [script n], creates
    every video under the id [new_id], and whose [Resource] constructor
    fails when [resource_exc] says so.  Its state counts the status polls. *)
Definition service_deps (script : string -> nat -> outcome MCPVideoStatusResponse)
    (new_id : string) (resource_exc : option Exc) : Deps := {|
  Remote := nat;
  Credits := Z;
  Voices := list string;
  AvatarGroups := list string;
  Avatars := list string;
  client_init := fun _ => None;
  get_remaining_credits := fun _ n => (Return (mkResponse (Some 100%Z) None), n);
  get_voices := fun _ n => (Return (mkResponse (Some ["v1"; "v2"]) None), n);
  ApiClient.list_avatar_groups := fun _ _ n => (Return (mkResponse (Some ["g1"]) None), n);
  get_avatars_in_group := fun _ _ n => (Return (mkResponse (Some ["a1"]) None), n);
  generate_avatar_video := fun _ _ n => (Return (created new_id), n);
  get_video_status := fun _ id n => (script id n, S n);
  wait_for_video_completion := fun _ id _ _ n => (script id n, S n);
  ApiClient.download_video := fun _ _ path s => (Return path, s);
  resource_init := fun _ => resource_exc
|}.

Definition video_bytes : list Byte.byte := [Byte.x00; Byte.x01; Byte.x02].

Definition fetch_ok (c : HeyGenApiClient) (url : string) (n : nat)
  : outcome (list Byte.byte) * nat := (Return video_bytes, n).

(** The same service behind the client with the polling loop and the
    download. *)
Definition client_deps (script : string -> nat -> outcome MCPVideoStatusResponse)
    (new_id : string) (resource_exc : option Exc) : Deps :=
  spec_deps (service_deps script new_id resource_exc) fetch_ok.

Definition always_processing (id : string) (n : nat) : outcome MCPVideoStatusResponse :=
  Return (processing id).

Definition always_completed (id : string) (n : nat) : outcome MCPVideoStatusResponse :=
  Return (completed id "https://x/y.mp4").

Definition noon : datetime := mkDatetime 2024 1 1 12 0 0.

Definition disk : FileSystem := mkFs ["home"] {[ ["home"]; ["tmp"] ]} ∅.

Definition key_set : gmap string string := {[ "HEYGEN_API_KEY" := "secret" ]}.

(** A freshly started server: no client yet, the key in the environment. *)
Definition start (deps : Deps) (r : @Remote deps) : @World deps :=
  @mkWorld deps None key_set 0 r disk "/tmp" noon [].

(** Nothing sent yet, no poll answered yet. *)
Definition idle : Wire nat := mkWire 0 [].

(** The client the first call of [get_api_client] builds in [start]. *)
Definition the_client : HeyGenApiClient := mkClient 0 "secret".

(** A service where every video is completed, one where none ever is, and
    one with completed videos where building a [Resource] fails. *)
Definition done_deps : Deps := client_deps always_completed "abc123" None.
Definition busy_deps : Deps := client_deps always_processing "abc123" None.
Definition broken_resource : Exc :=
  mkExc "TypeError" "BaseModel.__init__() takes 1 positional argument but 2 were given".
Definition faulty_deps : Deps :=
  client_deps always_completed "abc123" (Some broken_resource).

End Mock.

(** ** Start-up: [main] (server.py, lines 259-275) *)

Module Startup.
Import Pathlib Fs Datetime ApiClient Server.

(** What [parse_args] returns: the [argparse] namespace with the four
    options of the command line.  Without options it is [default_args]. *)
Record Args := mkArgs {
  arg_api_key : option string;
  arg_host : string;
  arg_port : Z;
  arg_reload : bool
}.

Definition default_args : Args := mkArgs None "127.0.0.1" 8000 false.

(** How [main] ends: [sys.exit(status)], or the call of [mcp.run()], from
    which on the tools are invoked. *)
Inductive Started :=
| Exit (status : Z)
| Run.

Definition key_error_lines : list string :=
  [ "ERROR: HeyGen API key not provided.";
    "Please set it using --api-key or the HEYGEN_API_KEY environment variable." ].

Section WithDeps.
Context {deps : Deps}.

(** [os.environ[name] = value] *)
Definition putenv (name value : string) : M World unit :=
  fun w => (Return tt, set_environ (<[name := value]> (environ w)) w).

(** [main], given the parsed arguments; the result carries the lines
    printed. *)
Definition main (args : Args) : M World (Started * list string) :=
  (if truthy (arg_api_key args) then
     putenv "HEYGEN_API_KEY" (default EmptyString (arg_api_key args))
   else ret tt);;;
  key <- getenv "HEYGEN_API_KEY";;
  if negb (truthy key) then ret (Exit 1, key_error_lines)
  else ret (Run, []).

(** The client method a tool calls first, with the defaults of the tool's
    signature filled in. *)
Definition first_call (call : ToolCall) : Call :=
  match call with
  | AccountCredits => CGetRemainingCredits
  | ListAvailableVoices => CGetVoices
  | ListAvatarGroups p => CListAvatarGroups (default false p)
  | ListAvatarsInGroup g => CGetAvatarsInGroup g
  | CreateVideo t a v ti =>
      CGenerateAvatarVideo
        (mkVideoGenerateRequest (default EmptyString ti)
           [mkVideoInput (mkCharacter a) (mkVoice t v)] (mkDimension 1280 720))
  | CheckVideoStatus v => CGetVideoStatus v
  | WaitForVideo v m d => CWaitForVideoCompletion v (default 60%Z m) (default 10%Z d)
  | DownloadVideo v _ => CGetVideoStatus v
  end.

Definition is_download (call : ToolCall) : bool :=
  match call with DownloadVideo _ _ => true | _ => false end.

(** What the client method of [first_call] answers, as a tool result. *)
Definition client_answer (call : ToolCall) (c : HeyGenApiClient)
  : Remote -> outcome ToolResult * Remote :=
  fun r =>
    let wrap {A} (f : A -> ToolResult) (x : outcome A * Remote) :=
      (match x.1 with Return a => Return (f a) | Raise e => Raise e end, x.2) in
    match call with
    | AccountCredits => wrap RCredits (get_remaining_credits c r)
    | ListAvailableVoices => wrap RVoices (get_voices c r)
    | ListAvatarGroups p =>
        wrap RAvatarGroups (ApiClient.list_avatar_groups c (default false p) r)
    | ListAvatarsInGroup g => wrap RAvatars (get_avatars_in_group c g r)
    | CreateVideo t a v ti =>
        wrap RGenerate
          (generate_avatar_video c
             (mkVideoGenerateRequest (default EmptyString ti)
                [mkVideoInput (mkCharacter a) (mkVoice t v)] (mkDimension 1280 720)) r)
    | CheckVideoStatus v => wrap RStatus (get_video_status c v r)
    | WaitForVideo v m d =>
        wrap RStatus (wait_for_video_completion c v (default 60%Z m) (default 10%Z d) r)
    | DownloadVideo v _ => wrap RStatus (get_video_status c v r)
    end.

(** How many clients the trace shows being built. *)
Definition is_new_client (e : Event) : bool :=
  match e with EvNewClient _ => true | _ => false end.

Definition clients_built (l : list Event) : nat :=
  length (List.filter is_new_client l).

(** The trace shows a client being built exactly when the module global
    holds one. *)
Definition one_client (w : World) : Prop :=
  clients_built (trace w) = match api_client w with Some _ => 1 | None => 0 end.

Definition keeps_one_client {A} (m : M World A) : Prop :=
  forall w, one_client w -> one_client (m w).2.

(** An event that is not a call on another client than [c], nor the
    building of a client. *)
Definition call_on (c : HeyGenApiClient) (e : Event) : Prop :=
  match e with
  | EvCall c' _ => c' = c
  | EvNewClient _ => False
  | _ => True
  end.

(** A computation that, started with [c] in the module global, leaves it
    there and adds only such events to the trace. *)
Definition calls_only_on (c : HeyGenApiClient) {A} (m : M World A) : Prop :=
  forall w, api_client w = Some c ->
    exists l, trace (m w).2 = (trace w ++ l)%list
              /\ Forall (call_on c) l /\ api_client (m w).2 = Some c.

(** Every call in the trace was made on the client in the module global. *)
Definition calls_go_to_the_client (w : World) : Prop :=
  forall c m, In (EvCall c m) (trace w) -> api_client w = Some c.

End WithDeps.



End Startup.

(** * Properties *)

Module Facts.
Import Pathlib Fs Datetime ApiClient Server SpecClient.
Local Open Scope list_scope.

Ltac run_M :=
  unfold bind, ret, raise, try_except, fmap_M, log, on_remote, on_remote_fs, on_fs,
    getenv, set_remote, set_fs, set_api_client, set_next_oid in *; simpl in *.

Section Generic.
Context {deps : Deps}.

(** ** [get_api_client] *)

Lemma get_api_client_cached (w : World) (c : HeyGenApiClient) :
  api_client w = Some c -> get_api_client w = (Return c, w).
Proof.
  intros H. unfold get_api_client. run_M. rewrite H. reflexivity.
Qed.

Lemma get_api_client_no_key (w : World) :
  api_client w = None ->
  truthy (environ w !! "HEYGEN_API_KEY") = false ->
  get_api_client w =
    (Raise (ValueError "HEYGEN_API_KEY environment variable not set."),
     mkWorld None (environ w) (next_oid w) (remote w) (fs w) (tempdir w) (clock w)
             (trace w ++ [EvGetenv "HEYGEN_API_KEY"])).
Proof.
  intros H1 H2. unfold get_api_client. run_M. rewrite H1. simpl.
  rewrite H2. simpl. rewrite H1. reflexivity.
Qed.

Lemma get_api_client_stores (w w' : World) (c : HeyGenApiClient) :
  get_api_client w = (Return c, w') -> api_client w' = Some c.
Proof.
  unfold get_api_client, new_client. run_M.
  destruct (api_client w) eqn:E; simpl.
  - intros [= <- <-]. exact E.
  - destruct (truthy (environ w !! "HEYGEN_API_KEY")); simpl; [|discriminate].
    destruct (client_init _); run_M; [discriminate|].
    intros [= <- <-]. reflexivity.
Qed.

(** [get_api_client] leaves the remote service, the file system, the temp
    directory and the clock alone. *)
Lemma get_api_client_frame (w : World) :
  let w' := (get_api_client w).2 in
  remote w' = remote w /\ fs w' = fs w /\ tempdir w' = tempdir w
  /\ clock w' = clock w /\ environ w' = environ w.
Proof.
  unfold get_api_client, new_client. run_M.
  destruct (api_client w); simpl; [tauto|].
  destruct (truthy (environ w !! "HEYGEN_API_KEY")); simpl; [|tauto].
  destruct (client_init _); run_M; tauto.
Qed.

(** ** Once set, the global client stays *)

Lemma keeps_ret {A} (a : A) : keeps_client (ret a).
Proof. intros w c H. exact H. Qed.

Lemma keeps_raise {A} (e : Exc) : keeps_client (@raise World A e).
Proof. intros w c H. exact H. Qed.

Lemma keeps_bind {A B} (m : M World A) (k : A -> M World B) :
  keeps_client m -> (forall a, keeps_client (k a)) -> keeps_client (bind m k).
Proof.
  intros Hm Hk w c H. unfold bind. specialize (Hm w c H).
  destruct (m w) as [[a|e] w']; simpl in *; [apply Hk|]; assumption.
Qed.

Lemma keeps_try {A} (m : M World A) (h : Exc -> M World A) :
  keeps_client m -> (forall e, keeps_client (h e)) -> keeps_client (try_except m h).
Proof.
  intros Hm Hh w c H. unfold try_except. specialize (Hm w c H).
  destruct (m w) as [[a|e] w']; simpl in *; [|apply Hh]; assumption.
Qed.

Lemma keeps_log (e : Event) : keeps_client (log e).
Proof. intros w c H. exact H. Qed.

Lemma keeps_on_remote {A} (f : Remote -> outcome A * Remote) : keeps_client (on_remote f).
Proof. intros w c H. unfold on_remote. destruct (f (remote w)). exact H. Qed.

Lemma keeps_on_remote_fs {A}
    (f : Remote * FileSystem -> outcome A * (Remote * FileSystem)) :
  keeps_client (on_remote_fs f).
Proof.
  intros w c H. unfold on_remote_fs. destruct (f (remote w, fs w)) as [o [r f']]. exact H.
Qed.

Lemma keeps_on_fs {A} (f : FileSystem -> outcome A * FileSystem) : keeps_client (on_fs f).
Proof. intros w c H. unfold on_fs. destruct (f (fs w)). exact H. Qed.

Lemma keeps_get_api_client : keeps_client get_api_client.
Proof. intros w c H. rewrite (get_api_client_cached w c H). exact H. Qed.

Lemma keeps_new_resource (p : string) : keeps_client (new_resource p).
Proof. intros w c H. unfold new_resource. destruct (resource_init p); exact H. Qed.

Lemma keeps_if {A} (b : bool) (m1 m2 : M World A) :
  keeps_client m1 -> keeps_client m2 -> keeps_client (if b then m1 else m2).
Proof. destruct b; auto. Qed.

Lemma keeps_fmap {A B} (f : A -> B) (m : M World A) :
  keeps_client m -> keeps_client (fmap_M f m).
Proof. intros H. apply keeps_bind; [exact H|]. intros a. apply keeps_ret. Qed.

Lemma keeps_gettempdir : keeps_client gettempdir.
Proof. intros w c H. exact H. Qed.

Lemma keeps_datetime_now : keeps_client datetime_now.
Proof. intros w c H. exact H. Qed.

Create HintDb keeps discriminated.
Hint Resolve keeps_ret keeps_raise keeps_log keeps_on_remote
  keeps_on_remote_fs keeps_on_fs keeps_get_api_client keeps_new_resource
  keeps_gettempdir keeps_datetime_now : keeps.

Ltac keeps :=
  repeat first
    [ solve [auto with keeps]
    | apply keeps_fmap | apply keeps_try | apply keeps_bind | apply keeps_if
    | intro ].

Lemma keeps_invoke (call : ToolCall) : keeps_client (invoke call).
Proof.
  destruct call; simpl;
    unfold account_credits, account_credits_body, call_get_remaining_credits,
      list_available_voices, list_available_voices_body, call_get_voices,
      Server.list_avatar_groups, list_avatar_groups_body, call_list_avatar_groups,
      list_avatars_in_group, list_avatars_in_group_body, call_get_avatars_in_group,
      create_video, create_video_body, call_generate_avatar_video,
      check_video_status, check_video_status_body, call_get_video_status,
      wait_for_video, wait_for_video_body, call_wait_for_video_completion,
      Server.download_video, download_video_body, call_download_video,
      destination, generated_path, mkdir;
    keeps.
Qed.

Ltac unfold_tools :=
  unfold account_credits, account_credits_body,
    list_available_voices, list_available_voices_body,
    Server.list_avatar_groups, list_avatar_groups_body,
    list_avatars_in_group, list_avatars_in_group_body,
    create_video, create_video_body,
    check_video_status, check_video_status_body,
    wait_for_video, wait_for_video_body,
    Server.download_video in *.

(** ** The dispatch boundary *)

(** C1. Every tool returns what the code inside its [try] returns, and
    when that code raises an exception [e], whatever it did before, the
    tool returns its own result type with only the error field set, to
    [str(e)]; the state is the one the exception left.  No invocation of
    a tool ends with an exception. *)
Theorem tools_convert_exceptions (call : ToolCall) (w : World) :
  match underlying call w with
  | (Return r, w') => invoke call w = (Return r, w')
  | (Raise e, w') =>
      invoke call w = (Return (error_result call (str e)), w')
      /\ result_error (error_result call (str e)) = Some (str e)
  end
  /\ (forall e w', invoke call w <> (Raise e, w')).
Proof.
  destruct call; simpl;
    unfold account_credits, list_available_voices, Server.list_avatar_groups,
      list_avatars_in_group, create_video, check_video_status, wait_for_video,
      Server.download_video, fmap_M, try_except, bind, ret;
    match goal with
    | |- context [account_credits_body w] => destruct (account_credits_body w) as [[r|e] w1]
    | |- context [list_available_voices_body w] =>
        destruct (list_available_voices_body w) as [[r|e] w1]
    | |- context [list_avatar_groups_body ?p w] =>
        destruct (list_avatar_groups_body p w) as [[r|e] w1]
    | |- context [list_avatars_in_group_body ?g w] =>
        destruct (list_avatars_in_group_body g w) as [[r|e] w1]
    | |- context [create_video_body ?t ?a ?v ?ti w] =>
        destruct (create_video_body t a v ti w) as [[r|e] w1]
    | |- context [check_video_status_body ?v w] =>
        destruct (check_video_status_body v w) as [[r|e] w1]
    | |- context [wait_for_video_body ?v ?m ?d w] =>
        destruct (wait_for_video_body v m d w) as [[r|e] w1]
    | |- context [download_video_body ?v ?p w] =>
        destruct (download_video_body v p w) as [[r|e] w1]
    end; simpl; repeat split; congruence.
Qed.

(** C9. With no client yet and [HEYGEN_API_KEY] unset, every tool returns
    its result type with the error string of the [ValueError] that
    [get_api_client] raises; nothing but the lookup of the variable has
    happened. *)
Theorem missing_key_is_a_tool_error (call : ToolCall) (w : World) :
  api_client w = None ->
  environ w !! "HEYGEN_API_KEY" = None ->
  invoke call w =
    (Return (error_result call "HEYGEN_API_KEY environment variable not set."),
     mkWorld None (environ w) (next_oid w) (remote w) (fs w) (tempdir w) (clock w)
             (trace w ++ [EvGetenv "HEYGEN_API_KEY"])).
Proof.
  intros Hc He.
  assert (Hk : truthy (environ w !! "HEYGEN_API_KEY") = false) by (rewrite He; reflexivity).
  pose proof (get_api_client_no_key w Hc Hk) as Hg.
  destruct call; simpl; unfold_tools; unfold download_video_body;
    unfold fmap_M, try_except, bind, ret; rewrite Hg; reflexivity.
Qed.

(** ** The shared client *)

Lemma step_keeps_client (w w' : World) (c : HeyGenApiClient) :
  step w w' -> api_client w = Some c -> api_client w' = Some c.
Proof.
  intros Hs H. inversion Hs; subst; simpl.
  - apply keeps_invoke. exact H.
  - exact H.
  - exact H.
Qed.

Lemma steps_keep_client (w w' : World) (c : HeyGenApiClient) :
  steps w w' -> api_client w = Some c -> api_client w' = Some c.
Proof.
  induction 1 as [|w1 w2 w3 Hstep _ IH]; intros H; [exact H|].
  apply IH. eapply step_keeps_client; eassumption.
Qed.

(** C7. Once [get_api_client] has returned a client, then after any
    number of tool invocations and changes of the environment it returns
    that same object and changes nothing: no look-up of the environment is
    made and no client is built. *)
Theorem get_api_client_idempotent (w w1 w2 : World) (c : HeyGenApiClient) :
  get_api_client w = (Return c, w1) ->
  steps w1 w2 ->
  get_api_client w2 = (Return c, w2).
Proof.
  intros Hg Hs. apply get_api_client_cached.
  eapply steps_keep_client; [exact Hs|].
  eapply get_api_client_stores. exact Hg.
Qed.

(** ** [create_video] *)

(** C6. [create_video] with only the input text calls
    [generate_avatar_video] once, with a request of one input segment
    (the avatar id and the voice id absent, the voice carrying the
    text), 1280 by 720, and the empty title; what the client returns is
    the result of the tool. *)
Theorem create_video_default_request (input_text : string) (w w1 : World)
    (c : HeyGenApiClient) (resp : MCPVideoGenerateResponse) (r' : Remote) :
  let request :=
    mkVideoGenerateRequest
      "" [mkVideoInput (mkCharacter None) (mkVoice input_text None)]
      (mkDimension 1280 720) in
  get_api_client w = (Return c, w1) ->
  generate_avatar_video c request (remote w1) = (Return resp, r') ->
  let res := invoke (CreateVideo input_text None None None) w in
  res.1 = Return (RGenerate resp)
  /\ trace res.2 = trace w1 ++ [EvCall c (CGenerateAvatarVideo request)]
  /\ remote res.2 = r'
  /\ length (video_inputs request) = 1.
Proof.
  intros request Hg Hr. simpl. unfold_tools. unfold call_generate_avatar_video.
  unfold fmap_M, try_except, bind, ret. rewrite Hg.
  unfold log, on_remote, build_request. simpl. fold request. rewrite Hr. simpl.
  repeat split; reflexivity.
Qed.

(** ** [download_video] *)

(** C3. When the status that [download_video] queries has no video URL
    ([None] or the empty string), the tool returns only the error message
    about the missing URL; the file system is as it was, and after the
    status query no further call is made on the client. *)
Theorem download_without_url (video_id : string) (download_path : option string)
    (w w1 : World) (c : HeyGenApiClient) (status : MCPVideoStatusResponse)
    (r' : Remote) :
  get_api_client w = (Return c, w1) ->
  get_video_status c video_id (remote w1) = (Return status, r') ->
  truthy (st_video_url status) = false ->
  let res := Server.download_video video_id download_path w in
  res.1 = Return (generate_error
                    "Video URL not available. Video may still be processing or failed.")
  /\ fs res.2 = fs w
  /\ trace res.2 = trace w1 ++ [EvCall c (CGetVideoStatus video_id)].
Proof.
  intros Hg Hs Hu. simpl.
  pose proof (get_api_client_frame w) as Hf. rewrite Hg in Hf. simpl in Hf.
  destruct Hf as (_ & Hfs & _).
  unfold Server.download_video, download_video_body, call_get_video_status.
  unfold try_except, bind. rewrite Hg.
  unfold log, on_remote. simpl. rewrite Hs. simpl. rewrite Hu. simpl.
  repeat split; try reflexivity. exact Hfs.
Qed.

(** C5, as the code has it. When the status has a URL, the destination
    is settled, the client's download returns [file_path] and the
    [Resource] is built, the tool returns the video id it was given, the
    status ["downloaded"], the URL of the status query and [file_path],
    with the resource and no error. *)
Theorem download_success (video_id : string) (download_path : option string)
    (w w1 w2 w3 w4 : World) (c : HeyGenApiClient) (status : MCPVideoStatusResponse)
    (path file_path : string) :
  get_api_client w = (Return c, w1) ->
  call_get_video_status c video_id w1 = (Return status, w2) ->
  truthy (st_video_url status) = true ->
  destination video_id download_path w2 = (Return path, w3) ->
  call_download_video c (default "" (st_video_url status)) path w3
    = (Return file_path, w4) ->
  resource_init file_path = None ->
  Server.download_video video_id download_path w =
    (Return (mkGenerate (Some video_id) (Some "downloaded") (st_video_url status)
                        (Some file_path) (Some (mkResource file_path)) None),
     w4).
Proof.
  intros Hg Hs Hu Hd Hf Hr.
  unfold Server.download_video, download_video_body, try_except.
  unfold bind at 1. rewrite Hg.
  unfold bind at 1. rewrite Hs. rewrite Hu. simpl.
  unfold bind at 1. rewrite Hd.
  unfold bind at 1. rewrite Hf.
  unfold bind, new_resource. rewrite Hr. reflexivity.
Qed.

(** C10. When the client's download has returned and the [Resource]
    constructor then raises [e], the tool returns only the error string
    [str(e)], and the world is the one the download left: what it wrote
    to the file system is still there. *)
Theorem download_error_after_write (video_id : string) (download_path : option string)
    (w w1 w2 w3 w4 : World) (c : HeyGenApiClient) (status : MCPVideoStatusResponse)
    (path file_path : string) (e : Exc) :
  get_api_client w = (Return c, w1) ->
  call_get_video_status c video_id w1 = (Return status, w2) ->
  truthy (st_video_url status) = true ->
  destination video_id download_path w2 = (Return path, w3) ->
  call_download_video c (default "" (st_video_url status)) path w3
    = (Return file_path, w4) ->
  resource_init file_path = Some e ->
  Server.download_video video_id download_path w
    = (Return (generate_error (str e)), w4)
  /\ fs (Server.download_video video_id download_path w).2 = fs w4.
Proof.
  intros Hg Hs Hu Hd Hf Hr.
  assert (Server.download_video video_id download_path w
          = (Return (generate_error (str e)), w4)) as ->; [|split; reflexivity].
  unfold Server.download_video, download_video_body, try_except.
  unfold bind at 1. rewrite Hg.
  unfold bind at 1. rewrite Hs. rewrite Hu. simpl.
  unfold bind at 1. rewrite Hd.
  unfold bind at 1. rewrite Hf.
  unfold bind, new_resource. rewrite Hr. reflexivity.
Qed.

End Generic.

(** ** Time stamps and generated paths *)

Section Stamps.
Local Arguments digit : simpl never.
Local Arguments is_digit : simpl never.
Local Arguments Nat.div : simpl never.
Local Arguments Nat.modulo : simpl never.

Lemma digit_inj (a b : nat) : digit a = digit b -> a mod 10 = b mod 10.
Proof.
  unfold digit. intros H.
  apply (f_equal nat_of_ascii) in H.
  pose proof (Nat.mod_upper_bound a 10 ltac:(lia)).
  pose proof (Nat.mod_upper_bound b 10 ltac:(lia)).
  rewrite !nat_ascii_embedding in H by lia. lia.
Qed.

Lemma length_digits (w n : nat) : length (digits w n) = w.
Proof.
  revert n. induction w as [|w IH]; intros n; simpl; [reflexivity|].
  rewrite length_app, IH. simpl. lia.
Qed.

Lemma digits_inj (w a b : nat) :
  a < 10 ^ w -> b < 10 ^ w -> digits w a = digits w b -> a = b.
Proof.
  revert a b. induction w as [|w IH]; intros a b Ha Hb H.
  - simpl in *. lia.
  - simpl in H. apply app_inj_tail in H as [H1 H2].
    apply digit_inj in H2.
    rewrite Nat.pow_succ_r' in Ha, Hb.
    assert (a / 10 = b / 10) as Hq.
    { apply IH; [| |exact H1]; apply Nat.Div0.div_lt_upper_bound; lia. }
    rewrite (Nat.div_mod_eq a 10), (Nat.div_mod_eq b 10). lia.
Qed.

Lemma digit_is_digit (n : nat) : is_digit (digit n) = true.
Proof.
  unfold is_digit, digit.
  pose proof (Nat.mod_upper_bound n 10 ltac:(lia)).
  rewrite nat_ascii_embedding by lia.
  apply andb_true_intro; split; apply Nat.leb_le; lia.
Qed.

Lemma digit_not_slash (n : nat) : Ascii.eqb (digit n) slash = false.
Proof.
  apply Ascii.eqb_neq. intros H.
  pose proof (digit_is_digit n) as Hd. rewrite H in Hd. discriminate Hd.
Qed.

Lemma digits_are_digits (w n : nat) : forallb is_digit (digits w n) = true.
Proof.
  revert n. induction w as [|w IH]; intros n; simpl; [reflexivity|].
  rewrite forallb_app, IH. cbn [forallb andb]. rewrite digit_is_digit. reflexivity.
Qed.

(** The format has fourteen digits, with an underscore between the date
    and the time of day. *)
Lemma strftime_shape (t : datetime) : Ymd_HMS_shape (strftime_Ymd_HMS t) = true.
Proof.
  unfold Ymd_HMS_shape, strftime_Ymd_HMS.
  rewrite list_ascii_of_string_of_list_ascii.
  cbn [digits app firstn skipn forallb length].
  rewrite !digit_is_digit. reflexivity.
Qed.

Lemma bounds_of_valid (t : datetime) :
  valid t = true ->
  year t < 10 ^ 4 /\ month t < 10 ^ 2 /\ day t < 10 ^ 2
  /\ hour t < 10 ^ 2 /\ minute t < 10 ^ 2 /\ second t < 10 ^ 2.
Proof.
  unfold valid. rewrite !andb_true_iff, !Nat.leb_le, Nat.ltb_lt.
  change (10 ^ 2) with 100. change (10 ^ 4) with (100 * 100). lia.
Qed.

(** On valid dates the format is one-to-one: every field has its own
    columns. *)
Lemma strftime_inj (t1 t2 : datetime) :
  valid t1 = true -> valid t2 = true ->
  strftime_Ymd_HMS t1 = strftime_Ymd_HMS t2 -> t1 = t2.
Proof.
  intros V1 V2 H.
  apply bounds_of_valid in V1 as (Y1 & Mo1 & D1 & H1 & Mi1 & S1).
  apply bounds_of_valid in V2 as (Y2 & Mo2 & D2 & H2 & Mi2 & S2).
  unfold strftime_Ymd_HMS in H.
  apply (f_equal list_ascii_of_string) in H.
  rewrite !list_ascii_of_string_of_list_ascii in H.
  apply app_inj_1 in H as [Ey H]; [|rewrite !length_digits; reflexivity].
  apply app_inj_1 in H as [Emo H]; [|rewrite !length_digits; reflexivity].
  apply app_inj_1 in H as [Ed H]; [|rewrite !length_digits; reflexivity].
  apply app_inj_1 in H as [_ H]; [|reflexivity].
  apply app_inj_1 in H as [Eh H]; [|rewrite !length_digits; reflexivity].
  apply app_inj_1 in H as [Emi Es]; [|rewrite !length_digits; reflexivity].
  apply digits_inj in Ey, Emo, Ed, Eh, Emi, Es; try assumption.
  destruct t1, t2; simpl in *; congruence.
Qed.

Lemma append_inj_l (a b c d : string) :
  String.length a = String.length b -> a +:+ c = b +:+ d -> a = b.
Proof.
  revert b. induction a as [|x a IH]; intros [|y b]; simpl; try discriminate; [reflexivity|].
  intros [= Hl] [= -> H]. f_equal. apply IH; assumption.
Qed.

Lemma strftime_length (t : datetime) : String.length (strftime_Ymd_HMS t) = 15.
Proof. reflexivity. Qed.

Lemma file_name_inj (t1 t2 : datetime) (video_id : string) :
  valid t1 = true -> valid t2 = true ->
  file_name_of t1 video_id = file_name_of t2 video_id -> t1 = t2.
Proof.
  intros V1 V2 H. apply strftime_inj; try assumption.
  unfold file_name_of in H.
  eapply append_inj_l; [|exact H]. rewrite !strftime_length. reflexivity.
Qed.

Lemma no_slash_append (a b : string) :
  no_slash (a +:+ b) = no_slash a && no_slash b.
Proof.
  unfold no_slash. induction a as [|x a IH]; simpl; [reflexivity|].
  rewrite IH. rewrite andb_assoc. reflexivity.
Qed.

Lemma split_no_slash (s : string) : no_slash s = true -> split_slash s = [s].
Proof.
  unfold no_slash. induction s as [|c s IH]; simpl; [reflexivity|].
  intros H. apply andb_true_iff in H as [Hc Hs].
  apply negb_true_iff in Hc. rewrite Hc. rewrite (IH Hs). reflexivity.
Qed.

Lemma strftime_no_slash (t : datetime) : no_slash (strftime_Ymd_HMS t) = true.
Proof.
  unfold no_slash, strftime_Ymd_HMS.
  rewrite list_ascii_of_string_of_list_ascii.
  cbn [digits app forallb].
  rewrite !digit_not_slash. reflexivity.
Qed.

Lemma file_name_no_slash (t : datetime) (video_id : string) :
  no_slash video_id = true -> no_slash (file_name_of t video_id) = true.
Proof.
  intros H. unfold file_name_of.
  rewrite !no_slash_append, strftime_no_slash, H. reflexivity.
Qed.

Lemma file_name_head (t : datetime) (video_id : string) :
  exists n c r, file_name_of t video_id = String (digit n) (String c r).
Proof.
  unfold file_name_of, strftime_Ymd_HMS.
  cbv [digits app string_of_list_ascii].
  eexists _, _, _. reflexivity.
Qed.

Lemma parse_component (c c2 : ascii) (r : string) :
  Ascii.eqb c slash = false ->
  no_slash (String c (String c2 r)) = true ->
  parse (String c (String c2 r)) = mkPath "" [String c (String c2 r)].
Proof.
  intros Hc Hs. unfold parse. rewrite (split_no_slash _ Hs).
  assert (root_of (String c (String c2 r)) = "") as ->.
  { destruct r; cbn [root_of]; rewrite Hc; reflexivity. }
  rewrite filter_cons_True, filter_nil; [reflexivity|].
  unfold keep_part. cbn [String.eqb]. destruct (Ascii.eqb c "."); exact I.
Qed.

(** A file name without a slash is one relative component. *)
Lemma parse_file_name (t : datetime) (video_id : string) :
  no_slash video_id = true ->
  parse (file_name_of t video_id) = mkPath "" [file_name_of t video_id].
Proof.
  intros H. pose proof (file_name_no_slash t video_id H) as Hs.
  destruct (file_name_head t video_id) as (n & c & r & E).
  rewrite E in *. apply parse_component; [apply digit_not_slash|exact Hs].
Qed.

Lemma truediv_file_name (dir : Path) (t : datetime) (video_id : string) :
  no_slash video_id = true ->
  truediv dir (file_name_of t video_id)
  = mkPath (root dir) (parts dir ++ [file_name_of t video_id]).
Proof.
  intros H. unfold truediv. rewrite (parse_file_name t video_id H). reflexivity.
Qed.

Lemma name_snoc (r : string) (l : list string) (x : string) :
  name (mkPath r (l ++ [x])) = x.
Proof. unfold name. simpl. apply last_last. Qed.

Lemma parent_snoc (r : string) (l : list string) (x : string) :
  parent (mkPath r (l ++ [x])) = mkPath r l.
Proof. unfold parent. simpl. rewrite removelast_last. reflexivity. Qed.

Lemma temp_dir_of_parts (tmp : string) :
  temp_dir_of tmp = mkPath (root (parse tmp)) (parts (parse tmp) ++ ["heygen_videos"]).
Proof. reflexivity. Qed.

End Stamps.

Section GeneratedPath.
Context {deps : Deps}.

Lemma destination_generated (video_id : string) (w : World) :
  let dir := temp_dir_of (tempdir w) in
  (mkdir_exist_ok dir (fs w)).1 = Return tt ->
  destination video_id None w =
    (Return (to_str (truediv dir (file_name_of (clock w) video_id))),
     mkWorld (api_client w) (environ w) (next_oid w) (remote w)
             (mkdir_exist_ok dir (fs w)).2 (tempdir w) (clock w)
             (trace w ++ [EvMkdir dir])).
Proof.
  intros dir H. unfold destination, generated_path, mkdir, gettempdir, datetime_now.
  cbn [truthy negb]. unfold bind, log, on_fs, ret, set_fs. cbn [fs tempdir].
  fold (temp_dir_of (tempdir w)). fold dir.
  destruct (mkdir_exist_ok dir (fs w)) as [[[]|e] f]; [reflexivity|discriminate H].
Qed.

(** C4, as the code has it. When [download_video] is given no path and
    the video id has no slash in it, the path handed to the client's
    download lies directly in the directory [heygen_videos] of the temp
    directory, and its name is the time stamp (eight digits, an
    underscore, six digits), an underscore, the video id and [.mp4]; at
    any other valid time the name is a different one. *)
Theorem generated_download_path (video_id : string) (w w1 w2 : World)
    (c : HeyGenApiClient) (status : MCPVideoStatusResponse) :
  let dir := temp_dir_of (tempdir w2) in
  get_api_client w = (Return c, w1) ->
  call_get_video_status c video_id w1 = (Return status, w2) ->
  truthy (st_video_url status) = true ->
  valid (clock w2) = true ->
  no_slash video_id = true ->
  (mkdir_exist_ok dir (fs w2)).1 = Return tt ->
  exists p : Path,
    trace (Server.download_video video_id None w).2
    = trace w2 ++ [EvMkdir dir;
                   EvCall c (CDownloadVideo (default "" (st_video_url status)) (to_str p))]
    /\ parent p = dir
    /\ name dir = "heygen_videos"
    /\ parent dir = parse (tempdir w2)
    /\ name p = strftime_Ymd_HMS (clock w2) +:+ "_" +:+ video_id +:+ ".mp4"
    /\ Ymd_HMS_shape (strftime_Ymd_HMS (clock w2)) = true
    /\ forall t : datetime,
         valid t = true -> t <> clock w2 ->
         name (truediv dir (file_name_of t video_id)) <> name p.
Proof.
  intros dir Hg Hs Hu Hv Hn Hm.
  exists (truediv dir (file_name_of (clock w2) video_id)).
  split; [|rewrite !truediv_file_name by exact Hn; repeat split].
  - unfold Server.download_video, download_video_body, try_except.
    unfold bind at 1. rewrite Hg.
    unfold bind at 1. rewrite Hs. rewrite Hu. cbn [negb].
    unfold bind at 1. rewrite (destination_generated video_id w2 Hm). fold dir.
    unfold call_download_video, new_resource, bind, log, on_remote_fs, ret, raise,
      set_fs, set_remote.
    cbn [remote fs trace].
    destruct (ApiClient.download_video _ _ _ _) as [[fp|e] [r f]]; cbn [trace].
    + destruct (resource_init fp); cbn [trace]; rewrite <- app_assoc; reflexivity.
    + rewrite <- app_assoc. reflexivity.
  - rewrite parent_snoc. unfold dir. rewrite temp_dir_of_parts. reflexivity.
  - unfold dir. rewrite temp_dir_of_parts. apply name_snoc.
  - unfold dir. rewrite temp_dir_of_parts, parent_snoc. reflexivity.
  - apply name_snoc.
  - apply strftime_shape.
  - intros t Ht Hne. rewrite truediv_file_name by exact Hn.
    rewrite !name_snoc. intros E. apply Hne.
    apply (file_name_inj t (clock w2) video_id); assumption.
Qed.

End GeneratedPath.

(** ** The polling loop *)

Section Polling.
Context (base : Deps).
Context (fetch_url : HeyGenApiClient -> string -> @Remote base
                     -> outcome (list Byte.byte) * @Remote base).

Abbreviation client := (spec_deps base fetch_url).

Lemma poll_loop_eq (c : HeyGenApiClient) (video_id : string) (delay : Z)
    (more : nat) (w : Wire (@Remote base)) :
  poll_loop base c video_id delay more w =
    match get_video_status c video_id (service w) with
    | (Return s, r) =>
        let w1 := mkWire r (sent w ++ [Poll video_id (Return s)]) in
        if terminal s then (Return s, w1)
        else match more with
             | O => (Return s, w1)
             | S more' =>
                 poll_loop base c video_id delay more'
                   (mkWire r (sent w1 ++ [Sleep delay]))
             end
    | (Raise e, r) => (Raise e, mkWire r (sent w ++ [Poll video_id (Raise e)]))
    end.
Proof.
  destruct more; cbn [poll_loop]; unfold bind at 1; unfold poll;
    destruct (get_video_status c video_id (service w)) as [[s|e] r];
    try reflexivity; destruct (terminal s); reflexivity.
Qed.

(** The loop makes at least one and at most [S more] polls, and what it
    ends with is what its last poll brought back. *)
Lemma poll_loop_log (c : HeyGenApiClient) (video_id : string) (delay : Z)
    (more : nat) (w : Wire (@Remote base)) :
  exists new,
    sent (poll_loop base c video_id delay more w).2 = sent w ++ new
    /\ polls new <> []
    /\ length (polls new) <= S more
    /\ last (polls new) = Some (poll_loop base c video_id delay more w).1.
Proof.
  revert w. induction more as [|more IH]; intros w; rewrite poll_loop_eq;
    destruct (get_video_status c video_id (service w)) as [[s|e] r]; cbn zeta;
    try (exists [Poll video_id (Raise e)]; cbn; repeat split; first [done | lia]);
    destruct (terminal s);
    try (exists [Poll video_id (Return s)]; cbn; repeat split; first [done | lia]).
  cbn [sent].
  match goal with
  | |- context [poll_loop _ _ _ _ _ ?w'] =>
      destruct (IH w') as (new & E & Hne & Hlen & Hlast)
  end.
  exists (Poll video_id (Return s) :: Sleep delay :: new).
  cbn [sent] in E. rewrite E.
  split; [rewrite <- !app_assoc; reflexivity|].
  change (polls (Poll video_id (Return s) :: Sleep delay :: new))
    with (Return s :: polls new).
  split; [discriminate|]. split; [cbn [length]; lia|].
  destruct (polls new) as [|o l]; [contradiction|].
  rewrite last_cons_cons. exact Hlast.
Qed.

(** C2. For a maximum attempt count of at least one, [wait_for_video]
    makes at most that many status polls and returns a result; the result
    is the status the last poll observed, as it is, whether or not the
    attempts ran out (and an error result when the last poll raised).
    With a client at hand at least one poll is made. *)
Theorem wait_for_video_bounded (video_id : string) (max_attempts delay_seconds : Z)
    (w : @World client) :
  (1 <= max_attempts)%Z ->
  exists new : list WireEvent,
    sent (remote (@wait_for_video client video_id max_attempts delay_seconds w).2)
    = sent (remote w) ++ new
    /\ (Z.of_nat (length (polls new)) <= max_attempts)%Z
    /\ (exists r, (@wait_for_video client video_id max_attempts delay_seconds w).1
                  = Return r)
    /\ (forall s, last (polls new) = Some (Return s) ->
                  (@wait_for_video client video_id max_attempts delay_seconds w).1
                  = Return s)
    /\ (forall e, last (polls new) = Some (Raise e) ->
                  (@wait_for_video client video_id max_attempts delay_seconds w).1
                  = Return (status_error (str e)))
    /\ (forall c w1, @get_api_client client w = (Return c, w1) -> polls new <> []).
Proof.
  intros Hmax.
  pose proof (@get_api_client_frame client w) as Hf. cbn zeta in Hf.
  destruct Hf as (Hr & _).
  remember (@wait_for_video client video_id max_attempts delay_seconds w) as res eqn:Eres.
  unfold wait_for_video, wait_for_video_body, try_except, bind, ret in Eres.
  destruct (@get_api_client client w) as [[c|e] w1] eqn:Hg; cbn [fst snd] in *.
  - unfold call_wait_for_video_completion, bind, log, on_remote, set_remote in Eres.
    cbn [remote wait_for_video_completion spec_deps] in Eres.
    unfold wait_for_video_completion_spec in Eres.
    destruct (Z.ltb_spec max_attempts 1) as [Hlt|_]; [lia|].
    destruct (poll_loop_log c video_id delay_seconds (Z.to_nat (max_attempts - 1))
                (remote w1)) as (new & E & Hne & Hlen & Hlast).
    destruct (poll_loop base c video_id delay_seconds (Z.to_nat (max_attempts - 1))
                (remote w1)) as [[s|e] wr]; subst res; cbn [fst snd remote] in *;
      exists new; rewrite E, Hr;
      (split; [reflexivity|]); (split; [lia|]); (split; [eauto|]);
      (split; [congruence|]); (split; [congruence|]); intros; exact Hne.
  - subst res. exists []. cbn [fst snd]. rewrite Hr, app_nil_r. cbn.
    repeat split; eauto; try lia; discriminate.
Qed.

End Polling.

(** ** The binary download *)

Section Download.
Context (base : Deps).
Context (fetch_url : HeyGenApiClient -> string -> @Remote base
                     -> outcome (list Byte.byte) * @Remote base).

Abbreviation dl_client := (spec_deps base fetch_url).

Lemma is_dir_root (fs : FileSystem) : is_dir fs [] = true.
Proof. unfold is_dir. apply bool_decide_eq_true. left. reflexivity. Qed.

Lemma is_dir_add_dir (loc l : list string) (fs : FileSystem) :
  is_dir (add_dir loc fs) l = true <-> l = loc \/ is_dir fs l = true.
Proof.
  unfold is_dir, add_dir. cbn [dirs]. rewrite !bool_decide_eq_true. set_solver.
Qed.

Lemma is_file_files (fs1 fs2 : FileSystem) (l : list string) :
  files fs1 = files fs2 -> is_file fs1 l = is_file fs2 l.
Proof. unfold is_file. intros ->. reflexivity. Qed.

(** With no regular file in the way, [mkdir_parents] succeeds, keeps
    the files, and the directories afterwards are the old ones and the
    locations from [at_] down to [at_ ++ rest]. *)
Lemma mkdir_parents_spec (rest at_ : list string) (fs : FileSystem) :
  (forall k, 0 < k -> is_file fs (at_ ++ take k rest) = false) ->
  exists fs',
    mkdir_parents at_ rest fs = (Return tt, fs')
    /\ cwd fs' = cwd fs /\ files fs' = files fs
    /\ forall l, is_dir fs' l = true <->
                 (is_dir fs l = true
                  \/ exists k, 0 < k <= length rest /\ l = at_ ++ take k rest).
Proof.
  revert at_ fs. induction rest as [|c rest IH]; intros at_ fs H.
  - exists fs. cbn. repeat split; auto. intros [?|(k & ? & _)]; [assumption|lia].
  - cbn [mkdir_parents].
    pose proof (H 1 ltac:(lia)) as H1. cbn [firstn] in H1. rewrite take_0 in H1. rewrite H1.
    set (fs1 := if is_dir fs (at_ ++ [c]) then fs else add_dir (at_ ++ [c]) fs).
    assert (Hfiles : files fs1 = files fs) by (unfold fs1; destruct (is_dir _ _); reflexivity).
    assert (Hcwd : cwd fs1 = cwd fs) by (unfold fs1; destruct (is_dir _ _); reflexivity).
    assert (Hd1 : forall l, is_dir fs1 l = true <-> l = at_ ++ [c] \/ is_dir fs l = true).
    { intros l. unfold fs1. destruct (is_dir fs (at_ ++ [c])) eqn:E.
      - split; [tauto|]. intros [->|?]; assumption.
      - apply is_dir_add_dir. }
    destruct (IH (at_ ++ [c]) fs1) as (fs' & Hrun & Hc & Hf & Hd).
    { intros k Hk. rewrite (is_file_files fs1 fs _ Hfiles), <- app_assoc.
      apply (H (S k)). lia. }
    exists fs'. rewrite Hrun, Hc, Hf. repeat split; try assumption.
    + intros Hl. apply Hd in Hl as [Hl|(k & Hk & ->)].
      * apply Hd1 in Hl as [->|Hl]; [right|left; exact Hl].
        exists 1. cbn [length take]. split; [lia|]. rewrite take_0. reflexivity.
      * right. exists (S k). cbn [length]. split; [lia|].
        rewrite <- app_assoc. reflexivity.
    + intros Hl. apply Hd. destruct Hl as [Hl|(k & Hk & ->)].
      * left. apply Hd1. right. exact Hl.
      * destruct k as [|k]; [lia|]. cbn [length] in Hk. destruct k as [|k].
        -- left. apply Hd1. left. cbn [take]. rewrite take_0. reflexivity.
        -- right. exists (S k). split; [lia|]. rewrite <- app_assoc. reflexivity.
Qed.

Lemma length_removelast_lt (l : list string) :
  l <> [] -> length (removelast l) < length l.
Proof.
  intros H. rewrite (app_removelast_last "" H) at 2.
  rewrite length_app. cbn. lia.
Qed.

(** The client's download when the directory of the destination is
    missing: the directory is there afterwards whatever the fetch does,
    and the bytes fetched end up at the destination. *)
Lemma download_spec_creates_parent (c : HeyGenApiClient) (video_url path : string)
    (w : Wire (@Remote base)) (fs : FileSystem) :
  let loc := resolve fs (parse path) in
  is_dir fs (removelast loc) = false ->
  (forall k, 0 < k -> is_file fs (take k (removelast loc)) = false) ->
  is_dir fs loc = false ->
  exists fs1,
    is_dir fs1 (removelast loc) = true
    /\ files fs1 = files fs
    /\ download_video_spec base fetch_url c video_url path (w, fs) =
         match fetch_url c video_url (service w) with
         | (Return data, r') =>
             (Return (loc_str loc),
              (mkWire r' (sent w ++ [Fetch video_url]),
               mkFs (cwd fs1) (dirs fs1) (<[loc := data]> (files fs1))))
         | (Raise e, r') => (Raise e, (mkWire r' (sent w ++ [Fetch video_url]), fs1))
         end.
Proof.
  intros loc Hmiss Hfree Hloc.
  destruct (mkdir_parents_spec (removelast loc) [] fs) as (fs1 & Hrun & Hc & Hf & Hd).
  { intros k Hk. cbn [app]. apply Hfree. exact Hk. }
  assert (Hne : loc <> []).
  { intros E. rewrite E, is_dir_root in Hloc. discriminate. }
  assert (Hdir : is_dir fs1 (removelast loc) = true).
  { apply Hd. right. exists (length (removelast loc)). split.
    - destruct (removelast loc) eqn:E; [|cbn; lia].
      rewrite is_dir_root in Hmiss. discriminate.
    - cbn [app]. rewrite firstn_all. reflexivity. }
  assert (Hnot : is_dir fs1 loc = false).
  { destruct (is_dir fs1 loc) eqn:E; [|reflexivity].
    apply Hd in E as [E|(k & Hk & E)]; [congruence|].
    exfalso. cbn [app] in E. apply (f_equal length) in E.
    rewrite length_take in E. pose proof (length_removelast_lt loc Hne). lia. }
  exists fs1. split; [exact Hdir|]. split; [exact Hf|].
  unfold download_video_spec, bind at 1. fold loc.
  unfold bind at 1. unfold in_fs at 1. rewrite Hrun.
  unfold bind at 1. unfold in_wire at 1, emit.
  unfold bind at 1. unfold in_wire at 1, through. cbn [service sent].
  destruct (fetch_url c video_url (service w)) as [[data|e] r']; [|reflexivity].
  unfold bind, in_fs, write_file, ret. rewrite Hnot, Hdir. reflexivity.
Qed.

(** C8. When [download_video] is given a path whose directory does not
    exist (and no regular file stands where a directory is needed, nor a
    directory at the path itself), the directory exists after the call
    whatever the fetch does; and when the fetch delivers the bytes, they
    are written to the path and the tool returns the resolved path,
    without an error. *)
Theorem download_creates_parent_directory (video_id path : string)
    (w w1 w2 : @World dl_client) (c : HeyGenApiClient)
    (status : MCPVideoStatusResponse) :
  let loc := resolve (fs w2) (parse path) in
  let url := default "" (st_video_url status) in
  @get_api_client dl_client w = (Return c, w1) ->
  @call_get_video_status dl_client c video_id w1 = (Return status, w2) ->
  truthy (st_video_url status) = true ->
  truthy (Some path) = true ->
  is_dir (fs w2) (removelast loc) = false ->
  (forall k, 0 < k -> is_file (fs w2) (take k (removelast loc)) = false) ->
  is_dir (fs w2) loc = false ->
  is_dir (fs (@Server.download_video dl_client video_id (Some path) w).2)
         (removelast loc) = true
  /\ forall data r',
       fetch_url c url (service (remote w2)) = (Return data, r') ->
       @resource_init base (loc_str loc) = None ->
       (@Server.download_video dl_client video_id (Some path) w).1
       = Return (mkGenerate (Some video_id) (Some "downloaded") (st_video_url status)
                            (Some (loc_str loc)) (Some (mkResource (loc_str loc))) None)
       /\ files (fs (@Server.download_video dl_client video_id (Some path) w).2) !! loc
          = Some data.
Proof.
  intros loc url Hg Hs Hu Hp Hmiss Hfree Hloc.
  destruct (download_spec_creates_parent c url path (remote w2) (fs w2)
              Hmiss Hfree Hloc) as (fs1 & Hdir & Hf & Hrun).
  fold loc in Hdir, Hrun.
  remember (@Server.download_video dl_client video_id (Some path) w) as res eqn:Eres.
  unfold Server.download_video, download_video_body, try_except in Eres.
  unfold bind at 1 in Eres. rewrite Hg in Eres.
  unfold bind at 1 in Eres. rewrite Hs, Hu in Eres. cbn [negb] in Eres.
  unfold destination in Eres. rewrite Hp in Eres. cbn [negb default] in Eres.
  unfold bind at 1 in Eres. unfold ret at 1 in Eres.
  unfold bind at 1 in Eres. unfold call_download_video in Eres.
  unfold bind at 1 in Eres. unfold log at 1 in Eres.
  unfold on_remote_fs in Eres.
  cbn [remote fs ApiClient.download_video Remote spec_deps] in Eres.
  fold url in Eres. change (id path) with path in Eres. rewrite Hrun in Eres.
  destruct (fetch_url c url (service (remote w2))) as [[data|e] r'] eqn:Hfetch.
  - unfold set_fs, set_remote, new_resource in Eres.
    cbn [resource_init spec_deps] in Eres.
    destruct (@resource_init base (loc_str loc)) eqn:Hres;
      unfold bind, raise, ret in Eres; subst res; cbn [fst snd fs].
    + split.
      * unfold is_dir. cbn [dirs]. exact Hdir.
      * intros data' r'' [= <- <-] [=].
    + split.
      * unfold is_dir. cbn [dirs]. exact Hdir.
      * intros data' r'' [= <- <-] _. split; [reflexivity|].
        cbn [files]. apply lookup_insert_eq.
  - unfold set_fs, set_remote, ret in Eres. subst res. cbn [fst snd fs].
    split; [exact Hdir|]. intros data r'' [=].
Qed.

End Download.

(** ** Runs on the scripted service *)

Section Runs.
Import Mock.

Lemma missing_key_is_a_tool_error_witness :
  @invoke done_deps AccountCredits
    (@mkWorld done_deps None ∅ 0 idle disk "/tmp" noon [])
  = (Return (@error_result done_deps AccountCredits
               "HEYGEN_API_KEY environment variable not set."),
     @mkWorld done_deps None ∅ 0 idle disk "/tmp" noon [EvGetenv "HEYGEN_API_KEY"]).
Proof.
  apply (@missing_key_is_a_tool_error done_deps AccountCredits
           (@mkWorld done_deps None ∅ 0 idle disk "/tmp" noon [])); reflexivity.
Defined.

Lemma get_api_client_idempotent_witness :
  let w1 := (@get_api_client done_deps (start done_deps idle)).2 in
  let w2 := set_environ ∅ (@invoke done_deps AccountCredits w1).2 in
  @get_api_client done_deps w2 = (Return the_client, w2).
Proof.
  intros w1 w2.
  apply (@get_api_client_idempotent done_deps (start done_deps idle) w1 w2 the_client).
  - reflexivity.
  - eapply steps_cons; [apply (step_invoke AccountCredits)|].
    eapply steps_cons; [apply (step_environ ∅)|]. apply steps_refl.
Defined.

Lemma create_video_default_request_witness :
  let res := @invoke busy_deps (CreateVideo "Hello world" None None None)
               (start busy_deps idle) in
  res.1 = Return (RGenerate (created "abc123"))
  /\ trace res.2
     = trace (@get_api_client busy_deps (start busy_deps idle)).2
       ++ [EvCall the_client
             (CGenerateAvatarVideo
                (mkVideoGenerateRequest
                   "" [mkVideoInput (mkCharacter None) (mkVoice "Hello world" None)]
                   (mkDimension 1280 720)))]
  /\ remote res.2 = idle
  /\ length [mkVideoInput (mkCharacter None) (mkVoice "Hello world" None)] = 1.
Proof.
  apply (@create_video_default_request busy_deps "Hello world" (start busy_deps idle)
           (@get_api_client busy_deps (start busy_deps idle)).2
           the_client (created "abc123") idle); reflexivity.
Defined.

Lemma wait_for_video_bounded_witness :
  let res := @wait_for_video busy_deps "abc" 3 10 (start busy_deps idle) in
  (1 <= 3)%Z
  /\ exists new : list WireEvent,
       sent (remote res.2) = sent (remote (start busy_deps idle)) ++ new
       /\ (Z.of_nat (length (polls new)) <= 3)%Z
       /\ (exists r, res.1 = Return r)
       /\ (forall s, last (polls new) = Some (Return s) -> res.1 = Return s)
       /\ (forall e, last (polls new) = Some (Raise e) ->
                     res.1 = Return (status_error (str e)))
       /\ (forall c w1, @get_api_client busy_deps (start busy_deps idle)
                        = (Return c, w1) -> polls new <> []).
Proof.
  intros res. split; [lia|].
  apply (wait_for_video_bounded (service_deps always_processing "abc123" None)
           fetch_ok "abc" 3 10 (start busy_deps idle)).
  lia.
Defined.

Lemma download_without_url_witness :
  let w := start busy_deps idle in
  let res := @Server.download_video busy_deps "abc" None w in
  res.1 = Return (generate_error
                    "Video URL not available. Video may still be processing or failed.")
  /\ fs res.2 = fs w
  /\ trace res.2 = trace (@get_api_client busy_deps w).2
                   ++ [EvCall the_client (CGetVideoStatus "abc")].
Proof.
  intros w.
  apply (@download_without_url busy_deps "abc" None w (@get_api_client busy_deps w).2
           the_client (processing "abc")
           (mkWire 1 [Poll "abc" (Return (processing "abc"))])); reflexivity.
Defined.

(** With a slash in the video id the generated file is not in
    [heygen_videos] itself, its name is neither the one made of the time
    stamp and the id nor one of the pattern, and a second later the name is
    the same. *)
Lemma slash_in_video_id :
  let w := start done_deps idle in
  let p := mkPath "/" ["tmp"; "heygen_videos"; "20240101_120000_a"; "b.mp4"] in
  last (trace (@Server.download_video done_deps "a/b" None w).2)
  = Some (EvCall the_client (CDownloadVideo "https://x/y.mp4" (to_str p)))
  /\ to_str p = "/tmp/heygen_videos/20240101_120000_a/b.mp4"
  /\ p = truediv (temp_dir_of "/tmp") (file_name_of noon "a/b")
  /\ name p = "b.mp4"
  /\ name p <> file_name_of noon "a/b"
  /\ fourteen_digit_pattern "a/b" (name p) = false
  /\ parent p <> temp_dir_of "/tmp"
  /\ name (truediv (temp_dir_of "/tmp") (file_name_of (mkDatetime 2024 1 1 12 0 1) "a/b"))
     = name p.
Proof.
  cbv zeta. repeat split; try (vm_compute; reflexivity); vm_compute; discriminate.
Qed.

(** Even without a slash the name does not begin with fourteen digits:
    the ninth character is the underscore of the format. *)
Example stamp_has_an_underscore :
  file_name_of noon "abc" = "20240101_120000_abc.mp4"
  /\ fourteen_digit_pattern "abc" (file_name_of noon "abc") = false.
Proof. split; reflexivity. Qed.

Lemma generated_download_path_witness :
  let w := start done_deps idle in
  let w1 := (@get_api_client done_deps w).2 in
  let w2 := (@call_get_video_status done_deps the_client "abc" w1).2 in
  let dir := temp_dir_of "/tmp" in
  exists p : Path,
    trace (@Server.download_video done_deps "abc" None w).2
    = trace w2 ++ [EvMkdir dir;
                   EvCall the_client (CDownloadVideo "https://x/y.mp4" (to_str p))]
    /\ parent p = dir
    /\ name dir = "heygen_videos"
    /\ parent dir = parse "/tmp"
    /\ name p = strftime_Ymd_HMS noon +:+ "_" +:+ "abc" +:+ ".mp4"
    /\ Ymd_HMS_shape (strftime_Ymd_HMS noon) = true
    /\ forall t : datetime,
         valid t = true -> t <> noon ->
         name (truediv dir (file_name_of t "abc")) <> name p.
Proof.
  intros w w1 w2 dir.
  apply (@generated_download_path done_deps "abc" w w1 w2 the_client
           (completed "abc" "https://x/y.mp4")); reflexivity.
Defined.

(** The status query reports ["completed"]; the result of the download
    carries ["downloaded"]. *)
Lemma downloaded_is_not_the_queried_status :
  let w := start done_deps idle in
  exists status resp,
    (@check_video_status done_deps "abc" w).1 = Return status
    /\ st_status status = Some "completed"
    /\ (@Server.download_video done_deps "abc" None w).1 = Return resp
    /\ gen_error resp = None
    /\ gen_status resp = Some "downloaded"
    /\ gen_status resp <> st_status status.
Proof.
  cbv zeta.
  exists (completed "abc" "https://x/y.mp4").
  exists (mkGenerate (Some "abc") (Some "downloaded") (Some "https://x/y.mp4")
            (Some "/tmp/heygen_videos/20240101_120000_abc.mp4")
            (Some (mkResource "/tmp/heygen_videos/20240101_120000_abc.mp4")) None).
  repeat split; try (vm_compute; reflexivity). discriminate.
Qed.

Lemma download_success_witness :
  let w := start done_deps idle in
  let w1 := (@get_api_client done_deps w).2 in
  let w2 := (@call_get_video_status done_deps the_client "abc" w1).2 in
  let w3 := (@destination done_deps "abc" None w2).2 in
  let path := "/tmp/heygen_videos/20240101_120000_abc.mp4" in
  let w4 := (@call_download_video done_deps the_client "https://x/y.mp4" path w3).2 in
  @Server.download_video done_deps "abc" None w =
    (Return (mkGenerate (Some "abc") (Some "downloaded") (Some "https://x/y.mp4")
                        (Some path) (Some (mkResource path)) None),
     w4).
Proof.
  intros w w1 w2 w3 path w4.
  apply (@download_success done_deps "abc" None w w1 w2 w3 w4 the_client
           (completed "abc" "https://x/y.mp4") path path); reflexivity.
Defined.

Lemma download_error_after_write_witness :
  let w := start faulty_deps idle in
  let w1 := (@get_api_client faulty_deps w).2 in
  let w2 := (@call_get_video_status faulty_deps the_client "abc" w1).2 in
  let w3 := (@destination faulty_deps "abc" None w2).2 in
  let path := "/tmp/heygen_videos/20240101_120000_abc.mp4" in
  let w4 := (@call_download_video faulty_deps the_client "https://x/y.mp4" path w3).2 in
  (@Server.download_video faulty_deps "abc" None w
   = (Return (generate_error (str broken_resource)), w4)
   /\ fs (@Server.download_video faulty_deps "abc" None w).2 = fs w4)
  /\ files (fs w4) !! ["tmp"; "heygen_videos"; "20240101_120000_abc.mp4"]
     = Some video_bytes
  /\ files (fs w) !! ["tmp"; "heygen_videos"; "20240101_120000_abc.mp4"] = None.
Proof.
  intros w w1 w2 w3 path w4. split; [|split; reflexivity].
  apply (@download_error_after_write faulty_deps "abc" None w w1 w2 w3 w4 the_client
           (completed "abc" "https://x/y.mp4") path path broken_resource); reflexivity.
Defined.

Lemma download_creates_parent_directory_witness :
  let w := start done_deps idle in
  let w1 := (@get_api_client done_deps w).2 in
  let w2 := (@call_get_video_status done_deps the_client "abc" w1).2 in
  let res := @Server.download_video done_deps "abc" (Some "/videos/out/a.mp4") w in
  is_dir (fs w) ["videos"; "out"] = false
  /\ is_dir (fs res.2) ["videos"; "out"] = true
  /\ forall data r',
       fetch_ok the_client "https://x/y.mp4" (service (remote w2)) = (Return data, r') ->
       @resource_init done_deps "/videos/out/a.mp4" = None ->
       res.1 = Return (mkGenerate (Some "abc") (Some "downloaded") (Some "https://x/y.mp4")
                                  (Some "/videos/out/a.mp4")
                                  (Some (mkResource "/videos/out/a.mp4")) None)
       /\ files (fs res.2) !! ["videos"; "out"; "a.mp4"] = Some data.
Proof.
  intros w w1 w2 res. split; [reflexivity|].
  apply (download_creates_parent_directory
           (service_deps always_completed "abc123" None) fetch_ok
           "abc" "/videos/out/a.mp4" w w1 w2 the_client
           (completed "abc" "https://x/y.mp4")); try reflexivity.
  all: intros k _; destruct k as [|[|[|k]]]; reflexivity.
Defined.

End Runs.

End Facts.

(** * Further properties of [server.py] *)

Module More.
Import Pathlib Fs Datetime ApiClient Server Startup.
Local Open Scope list_scope.

Section Resolution.
Context {deps : Deps}.

(** The first resolution: one look-up of the variable, one client built
    with the value found, which is stored in the module global. *)
Lemma get_api_client_first (w : World) (k : string) :
  api_client w = None ->
  environ w !! "HEYGEN_API_KEY" = Some k ->
  k <> EmptyString ->
  client_init k = None ->
  get_api_client w =
    (Return (mkClient (next_oid w) k),
     mkWorld (Some (mkClient (next_oid w) k)) (environ w) (S (next_oid w)) (remote w)
             (fs w) (tempdir w) (clock w)
             (trace w ++ [EvGetenv "HEYGEN_API_KEY"; EvNewClient (mkClient (next_oid w) k)])).
Proof.
  intros Hc He Hk Hi. destruct k as [|a k]; [congruence|].
  unfold get_api_client, getenv, new_client, bind, log, ret, set_api_client, set_next_oid.
  cbn [api_client environ next_oid remote fs tempdir clock trace].
  rewrite Hc. cbn [api_client environ next_oid remote fs tempdir clock trace].
  rewrite He. cbn [truthy negb default from_option id]. rewrite Hi.
  cbn [api_client environ next_oid remote fs tempdir clock trace].
  rewrite <- app_assoc. reflexivity.
Qed.

(** X1. An empty [HEYGEN_API_KEY] counts as a missing one: with no client
    yet, every tool returns the error of the missing key, and only the
    look-up of the variable has happened. *)
Theorem empty_key_is_a_tool_error (call : ToolCall) (w : World) :
  api_client w = None ->
  environ w !! "HEYGEN_API_KEY" = Some EmptyString ->
  invoke call w =
    (Return (error_result call "HEYGEN_API_KEY environment variable not set."),
     mkWorld None (environ w) (next_oid w) (remote w) (fs w) (tempdir w) (clock w)
             (trace w ++ [EvGetenv "HEYGEN_API_KEY"])).
Proof.
  intros Hc He.
  assert (Hk : truthy (environ w !! "HEYGEN_API_KEY") = false) by (rewrite He; reflexivity).
  pose proof (Facts.get_api_client_no_key w Hc Hk) as Hg.
  destruct call; cbn [invoke];
    unfold account_credits, account_credits_body,
      list_available_voices, list_available_voices_body,
      Server.list_avatar_groups, list_avatar_groups_body,
      list_avatars_in_group, list_avatars_in_group_body,
      create_video, create_video_body,
      check_video_status, check_video_status_body,
      wait_for_video, wait_for_video_body,
      Server.download_video, download_video_body;
    unfold fmap_M, try_except, bind, ret; rewrite Hg; reflexivity.
Qed.

(** X2. A resolution that fails is not remembered: whenever
    [get_api_client] raises, the module global is still [None] afterwards
    and the environment is as it was. *)
Theorem failed_resolution_is_not_cached (w w' : World) (e : Exc) :
  get_api_client w = (Raise e, w') ->
  api_client w' = None /\ environ w' = environ w /\ next_oid w' = next_oid w.
Proof.
  unfold get_api_client, getenv, new_client, bind, log, ret, raise.
  cbn [api_client environ next_oid remote fs tempdir clock trace].
  destruct (api_client w) eqn:Hc; [discriminate|].
  cbn [api_client environ next_oid remote fs tempdir clock trace]. rewrite Hc.
  destruct (truthy (environ w !! "HEYGEN_API_KEY")); cbn [negb].
  - destruct (client_init _); [|discriminate].
    intros [= _ <-]. cbn. auto.
  - intros [= _ <-]. cbn. auto.
Qed.

(** X3. After a call that failed for want of a key, setting the variable is
    enough: the next call builds a client with the new value and stores
    it. *)
Theorem resolution_recovers (w : World) (k : string) :
  api_client w = None ->
  truthy (environ w !! "HEYGEN_API_KEY") = false ->
  k <> EmptyString ->
  client_init k = None ->
  let w1 := (get_api_client w).2 in
  let w2 := set_environ (<["HEYGEN_API_KEY" := k]> (environ w1)) w1 in
  (get_api_client w).1 = Raise (ValueError "HEYGEN_API_KEY environment variable not set.")
  /\ (get_api_client w2).1 = Return (mkClient (next_oid w) k)
  /\ api_client (get_api_client w2).2 = Some (mkClient (next_oid w) k).
Proof.
  intros Hc He Hk Hi w1 w2.
  pose proof (Facts.get_api_client_no_key w Hc He) as Hg.
  assert (Hn : next_oid w2 = next_oid w) by (unfold w2, w1; rewrite Hg; reflexivity).
  assert (Hg2 : (get_api_client w2).1 = Return (mkClient (next_oid w2) k)
                /\ api_client (get_api_client w2).2 = Some (mkClient (next_oid w2) k)).
  { rewrite (get_api_client_first w2 k); [split; reflexivity| | |assumption|assumption].
    - unfold w2, w1. rewrite Hg. reflexivity.
    - unfold w2. cbn [environ set_environ]. apply lookup_insert_eq. }
  rewrite Hn in Hg2. split; [rewrite Hg; reflexivity|exact Hg2].
Qed.

End Resolution.
Section Main.
Context {deps : Deps}.

Ltac run_main :=
  unfold main, putenv, getenv, bind, log, ret, set_environ;
  cbn [api_client environ next_oid remote fs tempdir clock trace truthy negb
       default from_option id fst snd arg_api_key].


(** X5. A non-empty [--api-key] wins over the environment: [main] stores
    it in [HEYGEN_API_KEY], whatever was there, leaves the other variables
    alone, and goes on to [mcp.run()]. *)
Theorem main_api_key_wins (args : Args) (w : World) (k : string) :
  arg_api_key args = Some k ->
  k <> EmptyString ->
  (main args w).1 = Return (Run, [])
  /\ environ (main args w).2 = <["HEYGEN_API_KEY" := k]> (environ w)
  /\ forall name, name <> "HEYGEN_API_KEY" ->
                  environ (main args w).2 !! name = environ w !! name.
Proof.
  intros Ha Hk. destruct args as [key h p r]. cbn in Ha. subst key.
  destruct k as [|a k]; [congruence|]. run_main.
  rewrite lookup_insert_eq. cbn. repeat split.
  intros name Hn. apply lookup_insert_ne. congruence.
Qed.

(** X6. When [main] has handed over to [mcp.run()] and no client exists
    yet, the environment holds a non-empty key, which is the one of the
    command line when a non-empty one was given and the one of the
    environment otherwise; unless its constructor fails, the first
    [get_api_client] returns a client built with that key. *)
Theorem main_then_first_client (args : Args) (w w' : World) (out : list string) :
  main args w = (Return (Run, out), w') ->
  api_client w = None ->
  exists k,
    k <> EmptyString
    /\ environ w' !! "HEYGEN_API_KEY" = Some k
    /\ (truthy (arg_api_key args) = true -> arg_api_key args = Some k)
    /\ (truthy (arg_api_key args) = false -> environ w !! "HEYGEN_API_KEY" = Some k)
    /\ (client_init k = None ->
        (get_api_client w').1 = Return (mkClient (next_oid w) k)).
Proof.
  intros Hm Hc.
  assert (Hkey : exists k, k <> EmptyString
            /\ environ w' !! "HEYGEN_API_KEY" = Some k
            /\ (truthy (arg_api_key args) = true -> arg_api_key args = Some k)
            /\ (truthy (arg_api_key args) = false -> environ w !! "HEYGEN_API_KEY" = Some k)
            /\ api_client w' = None /\ next_oid w' = next_oid w).
  { destruct args as [[[|a k]|] h p r]; revert Hm; run_main.
    - destruct (environ w !! "HEYGEN_API_KEY") as [[|a k]|] eqn:E;
        cbn; intros [= <- <-]; try discriminate.
      exists (String a k). cbn. rewrite E. repeat split; auto; discriminate.
    - rewrite lookup_insert_eq. cbn. intros [= <- <-].
      exists (String a k). cbn. rewrite lookup_insert_eq.
      repeat split; auto; discriminate.
    - destruct (environ w !! "HEYGEN_API_KEY") as [[|a k]|] eqn:E;
        cbn; intros [= <- <-]; try discriminate.
      exists (String a k). cbn. rewrite E. repeat split; auto; discriminate. }
  destruct Hkey as (k & Hk & He & Ha & Hb & Hc' & Hn).
  exists k. repeat split; try assumption.
  intros Hi. rewrite (More.get_api_client_first w' k Hc' He Hk Hi), Hn. reflexivity.
Qed.

End Main.

Section Calls.
Context {deps : Deps}.

Ltac unfold_all_tools :=
  unfold account_credits, account_credits_body, call_get_remaining_credits,
    list_available_voices, list_available_voices_body, call_get_voices,
    Server.list_avatar_groups, list_avatar_groups_body, call_list_avatar_groups,
    list_avatars_in_group, list_avatars_in_group_body, call_get_avatars_in_group,
    create_video, create_video_body, call_generate_avatar_video, build_request,
    check_video_status, check_video_status_body, call_get_video_status,
    wait_for_video, wait_for_video_body, call_wait_for_video_completion,
    Server.download_video, download_video_body, call_download_video,
    destination, generated_path, mkdir, gettempdir, datetime_now, new_resource.

Ltac run_world :=
  cbn [api_client environ next_oid remote fs tempdir clock trace fst snd negb].

(** X7. With a client at hand, the first thing every tool does is one call
    of its client method, with the arguments it was given and the defaults
    of its signature (no public groups, an empty title, 60 attempts 10
    seconds apart); [download_video] begins with the status query.  Every
    tool but [download_video] does nothing else. *)
Theorem tools_first_call (call : ToolCall) (w w1 : World) (c : HeyGenApiClient) :
  get_api_client w = (Return c, w1) ->
  exists rest,
    trace (invoke call w).2 = trace w1 ++ EvCall c (first_call call) :: rest
    /\ (is_download call = false ->
        rest = [] /\ fs (invoke call w).2 = fs w1
        /\ api_client (invoke call w).2 = api_client w1).
Proof.
  intros Hg.
  destruct call; cbn [invoke first_call is_download]; unfold_all_tools; unfold_all_tools;
    unfold fmap_M, try_except, bind, log, on_remote, on_remote_fs, on_fs, ret, raise,
      set_remote, set_fs;
    rewrite Hg; run_world.
  1-7: match goal with
       | |- context [?f (remote ?x)] => destruct (f (remote x)) as [[r|e] r']
       end; run_world; exists []; auto.
  destruct (get_video_status c video_id (remote w1)) as [[st|e] r']; run_world;
    [|eexists; split; [reflexivity|discriminate]].
  destruct (truthy (st_video_url st)); run_world;
    [|eexists; split; [reflexivity|discriminate]].
  destruct (truthy download_path); run_world.
  - destruct (ApiClient.download_video _ _ _ _) as [[fp|e] [r f]]; run_world;
      [destruct (resource_init fp); run_world|];
      (eexists; split; [rewrite <- ?app_assoc; reflexivity|discriminate]).
  - destruct (mkdir_exist_ok _ _) as [[[]|e] f0]; run_world;
      [|eexists; split; [rewrite <- ?app_assoc; reflexivity|discriminate]].
    destruct (ApiClient.download_video _ _ _ _) as [[fp|e] [r f]]; run_world;
      [destruct (resource_init fp); run_world|];
      (eexists; split; [rewrite <- ?app_assoc; reflexivity|discriminate]).
Qed.

End Calls.

Section Destination.
Context {deps : Deps}.

Ltac run_world :=
  cbn [api_client environ next_oid remote fs tempdir clock trace fst snd negb].

(** X8. A non-empty path given to [download_video] goes to the client's
    download as it is: the server creates no directory and does not touch
    the file system itself, and after the status query the download is its
    only call. *)
Theorem explicit_path_is_passed_on (video_id path : string) (w w1 : World)
    (c : HeyGenApiClient) (st : MCPVideoStatusResponse) (r' : Remote) :
  get_api_client w = (Return c, w1) ->
  get_video_status c video_id (remote w1) = (Return st, r') ->
  truthy (st_video_url st) = true ->
  path <> EmptyString ->
  let url := default EmptyString (st_video_url st) in
  let res := Server.download_video video_id (Some path) w in
  trace res.2 = trace w1 ++ [EvCall c (CGetVideoStatus video_id);
                             EvCall c (CDownloadVideo url path)]
  /\ (remote res.2, fs res.2) = (ApiClient.download_video c url path (r', fs w1)).2.
Proof.
  intros Hg Hs Hu Hp url res. subst res.
  destruct path as [|a path]; [congruence|].
  unfold Server.download_video, download_video_body, call_get_video_status,
    call_download_video, destination, new_resource.
  unfold try_except, bind, log, on_remote, on_remote_fs, ret, raise, set_remote, set_fs.
  rewrite Hg. run_world. rewrite Hs. run_world. rewrite Hu.
  cbn [negb truthy default from_option id]. run_world. fold url.
  destruct (ApiClient.download_video c url (String a path) (r', fs w1)) as [[fp|e] [r f]];
    run_world; [destruct (resource_init fp); run_world|];
    (split; [rewrite <- app_assoc; reflexivity|reflexivity]).
Qed.

(** X9. [download_video] takes an empty path for no path: with [None] or
    the empty string, and the directory made, the client's download is
    handed the generated destination, the temp directory joined with
    [heygen_videos] and the name made of time stamp and video id. *)
Theorem empty_path_is_generated (video_id : string) (download_path : option string)
    (w w1 : World) (c : HeyGenApiClient) (st : MCPVideoStatusResponse) (r' : Remote) :
  let dir := temp_dir_of (tempdir w1) in
  let url := default EmptyString (st_video_url st) in
  get_api_client w = (Return c, w1) ->
  get_video_status c video_id (remote w1) = (Return st, r') ->
  truthy (st_video_url st) = true ->
  truthy download_path = false ->
  (mkdir_exist_ok dir (fs w1)).1 = Return tt ->
  trace (Server.download_video video_id download_path w).2
  = trace w1 ++ [EvCall c (CGetVideoStatus video_id); EvMkdir dir;
                 EvCall c (CDownloadVideo url
                             (to_str (truediv dir (file_name_of (clock w1) video_id))))]
  /\ Server.download_video video_id download_path w = Server.download_video video_id None w.
Proof.
  intros dir url Hg Hs Hu Hp Hm.
  assert (Hsame : Server.download_video video_id download_path w
                  = Server.download_video video_id None w).
  { destruct download_path as [[|a p]|]; [reflexivity|discriminate Hp|reflexivity]. }
  split; [|exact Hsame]. rewrite Hsame.
  unfold Server.download_video, download_video_body, call_get_video_status,
    call_download_video, destination, generated_path, mkdir, gettempdir, datetime_now,
    new_resource.
  unfold try_except, bind, log, on_remote, on_remote_fs, on_fs, ret, raise,
    set_remote, set_fs.
  rewrite Hg. run_world. rewrite Hs. run_world. rewrite Hu.
  cbn [negb truthy]. run_world. fold (temp_dir_of (tempdir w1)). fold dir.
  destruct (mkdir_exist_ok dir (fs w1)) as [[[]|e] f0]; [|discriminate Hm].
  run_world. fold url. fold (file_name_of (clock w1) video_id).
  destruct (ApiClient.download_video _ _ _ _) as [[fp|e] [r f]]; run_world;
    [destruct (resource_init fp); run_world|];
    rewrite <- !app_assoc; reflexivity.
Qed.

Lemma mkdir_exist_ok_blocked (p : Path) (f : FileSystem) :
  is_dir f (resolve f p) = false ->
  is_file f (resolve f p) = true \/ is_dir f (removelast (resolve f p)) = false ->
  exists e, mkdir_exist_ok p f = (Raise e, f).
Proof.
  intros Hd [Hf|Hp]; unfold mkdir_exist_ok; rewrite Hd.
  - rewrite Hf. eauto.
  - destruct (is_file f (resolve f p)); [eauto|]. rewrite Hp.
    destruct (is_file f (removelast (resolve f p))); eauto.
Qed.

(** X10. When no path is given and [heygen_videos] cannot be made in the
    temp directory (something that is not a directory is in its place, or
    the temp directory itself is missing), [download_video] returns the
    error of the [mkdir]; the client's download is not called and the file
    system is as it was. *)
Theorem blocked_directory_is_an_error (video_id : string) (download_path : option string)
    (w w1 : World) (c : HeyGenApiClient) (st : MCPVideoStatusResponse) (r' : Remote) :
  let dir := temp_dir_of (tempdir w1) in
  let loc := resolve (fs w1) dir in
  get_api_client w = (Return c, w1) ->
  get_video_status c video_id (remote w1) = (Return st, r') ->
  truthy (st_video_url st) = true ->
  truthy download_path = false ->
  is_dir (fs w1) loc = false ->
  is_file (fs w1) loc = true \/ is_dir (fs w1) (removelast loc) = false ->
  let res := Server.download_video video_id download_path w in
  exists e,
    (mkdir_exist_ok dir (fs w1)).1 = Raise e
    /\ res.1 = Return (generate_error (str e))
    /\ fs res.2 = fs w1
    /\ trace res.2 = trace w1 ++ [EvCall c (CGetVideoStatus video_id); EvMkdir dir].
Proof.
  intros dir loc Hg Hs Hu Hp Hd Hb res. subst res.
  destruct (mkdir_exist_ok_blocked dir (fs w1) Hd Hb) as (e & He).
  exists e. rewrite He. split; [reflexivity|].
  unfold Server.download_video, download_video_body, call_get_video_status,
    destination, generated_path, mkdir, gettempdir.
  unfold try_except, bind, log, on_remote, on_fs, ret, raise, set_remote, set_fs.
  rewrite Hg. run_world. rewrite Hs. run_world. rewrite Hu, Hp.
  cbn [negb]. run_world. fold (temp_dir_of (tempdir w1)). fold dir.
  rewrite He. run_world. rewrite <- app_assoc. repeat split.
Qed.

(** X11. Making the directory is repeatable: once a destination has been
    generated, generating one again in a world with that file system and
    temp directory succeeds and leaves the file system unchanged. *)
Theorem generated_directory_is_reused (video_id video_id' : string) (w w' : World)
    (p : Path) :
  (generated_path video_id w).1 = Return p ->
  fs w' = fs (generated_path video_id w).2 ->
  tempdir w' = tempdir w ->
  (generated_path video_id' w').1
  = Return (truediv (temp_dir_of (tempdir w)) (file_name_of (clock w') video_id'))
  /\ fs (generated_path video_id' w').2 = fs w'.
Proof.
  unfold generated_path, mkdir, gettempdir, datetime_now.
  unfold bind, log, on_fs, ret, set_fs. run_world.
  fold (temp_dir_of (tempdir w)).
  intros H Hfs Ht. rewrite Ht, Hfs. fold (temp_dir_of (tempdir w)).
  unfold mkdir_exist_ok in *.
  set (dir := temp_dir_of (tempdir w)) in *.
  destruct (is_dir (fs w) (resolve (fs w) dir)) eqn:E1; run_world.
  - rewrite E1. run_world. split; reflexivity.
  - destruct (is_file (fs w) (resolve (fs w) dir)); [discriminate H|].
    destruct (is_dir (fs w) (removelast (resolve (fs w) dir)));
      [|destruct (is_file _ _); discriminate H].
    run_world.
    set (fs1 := mkFs (cwd (fs w)) ({[resolve (fs w) dir]} ∪ dirs (fs w)) (files (fs w))).
    assert (Hr : resolve fs1 dir = resolve (fs w) dir) by reflexivity.
    assert (Hd : is_dir fs1 (resolve (fs w) dir) = true).
    { unfold is_dir. apply bool_decide_eq_true. cbn [dirs fs1]. set_solver. }
    rewrite Hr, Hd. run_world. split; reflexivity.
Qed.

End Destination.

Section Sorting.
Local Arguments digit : simpl never.
Local Arguments Nat.div : simpl never.
Local Arguments Nat.modulo : simpl never.










End Sorting.

Section Answers.
Context {deps : Deps}.

Ltac run_world :=
  cbn [api_client environ next_oid remote fs tempdir clock trace fst snd negb].

(** X13. Every tool but [download_video] hands on what its client method
    answers: the response as it is when the method returns, the error
    result of the tool when it raises; the remote service is left as the
    method left it. *)
Theorem tools_pass_the_answer_on (call : ToolCall) (w w1 : World) (c : HeyGenApiClient) :
  is_download call = false ->
  get_api_client w = (Return c, w1) ->
  (invoke call w).1
  = Return (match (client_answer call c (remote w1)).1 with
            | Return r => r
            | Raise e => error_result call (str e)
            end)
  /\ remote (invoke call w).2 = (client_answer call c (remote w1)).2.
Proof.
  intros Hd Hg.
  destruct call; try discriminate Hd; cbn [invoke client_answer error_result];
    unfold account_credits, account_credits_body, call_get_remaining_credits,
      list_available_voices, list_available_voices_body, call_get_voices,
      Server.list_avatar_groups, list_avatar_groups_body, call_list_avatar_groups,
      list_avatars_in_group, list_avatars_in_group_body, call_get_avatars_in_group,
      create_video, create_video_body, call_generate_avatar_video, build_request,
      check_video_status, check_video_status_body, call_get_video_status,
      wait_for_video, wait_for_video_body, call_wait_for_video_completion;
    unfold fmap_M, try_except, bind, log, on_remote, ret, set_remote;
    rewrite Hg; run_world;
    match goal with
    | |- context [?f (remote ?x)] => destruct (f (remote x)) as [[r|e] r']
    end; run_world; split; reflexivity.
Qed.

(** X14. When the status query of [download_video] raises, the tool
    returns the error of the query; no directory is made, the client's
    download is not called and the file system is as it was. *)
Theorem download_status_failure (video_id : string) (download_path : option string)
    (w w1 : World) (c : HeyGenApiClient) (e : Exc) (r' : Remote) :
  get_api_client w = (Return c, w1) ->
  get_video_status c video_id (remote w1) = (Raise e, r') ->
  let res := Server.download_video video_id download_path w in
  res.1 = Return (generate_error (str e))
  /\ fs res.2 = fs w1
  /\ trace res.2 = trace w1 ++ [EvCall c (CGetVideoStatus video_id)].
Proof.
  intros Hg Hs res. subst res.
  unfold Server.download_video, download_video_body, call_get_video_status.
  unfold try_except, bind, log, on_remote, ret, set_remote.
  rewrite Hg. run_world. rewrite Hs. run_world. repeat split.
Qed.

End Answers.

Section OneClient.
Context {deps : Deps}.

Lemma clients_built_app (l l' : list Event) :
  clients_built (l ++ l') = clients_built l + clients_built l'.
Proof. unfold clients_built. rewrite List.filter_app, length_app. reflexivity. Qed.

Lemma one_ret {A} (a : A) : keeps_one_client (ret a).
Proof. intros w H. exact H. Qed.

Lemma one_raise {A} (e : Exc) : keeps_one_client (@raise World A e).
Proof. intros w H. exact H. Qed.

Lemma one_bind {A B} (m : M World A) (k : A -> M World B) :
  keeps_one_client m -> (forall a, keeps_one_client (k a)) -> keeps_one_client (bind m k).
Proof.
  intros Hm Hk w H. unfold bind. specialize (Hm w H).
  destruct (m w) as [[a|e] w']; cbn [snd] in *; [apply Hk|]; assumption.
Qed.

Lemma one_try {A} (m : M World A) (h : Exc -> M World A) :
  keeps_one_client m -> (forall e, keeps_one_client (h e)) ->
  keeps_one_client (try_except m h).
Proof.
  intros Hm Hh w H. unfold try_except. specialize (Hm w H).
  destruct (m w) as [[a|e] w']; cbn [snd] in *; [|apply Hh]; assumption.
Qed.

Lemma one_if {A} (b : bool) (m1 m2 : M World A) :
  keeps_one_client m1 -> keeps_one_client m2 -> keeps_one_client (if b then m1 else m2).
Proof. destruct b; auto. Qed.

Lemma one_fmap {A B} (f : A -> B) (m : M World A) :
  keeps_one_client m -> keeps_one_client (fmap_M f m).
Proof. intros H. apply one_bind; [exact H|]. intros a. apply one_ret. Qed.

Lemma one_log (e : Event) : is_new_client e = false -> keeps_one_client (log e).
Proof.
  intros He w H. unfold one_client, log in *. cbn [snd trace api_client].
  rewrite clients_built_app, H. unfold clients_built. cbn [List.filter].
  rewrite He. cbn. lia.
Qed.

Lemma one_on_remote {A} (f : Remote -> outcome A * Remote) : keeps_one_client (on_remote f).
Proof. intros w H. unfold on_remote. destruct (f (remote w)). exact H. Qed.

Lemma one_on_remote_fs {A}
    (f : Remote * FileSystem -> outcome A * (Remote * FileSystem)) :
  keeps_one_client (on_remote_fs f).
Proof.
  intros w H. unfold on_remote_fs. destruct (f (remote w, fs w)) as [o [r f']]. exact H.
Qed.

Lemma one_on_fs {A} (f : FileSystem -> outcome A * FileSystem) : keeps_one_client (on_fs f).
Proof. intros w H. unfold on_fs. destruct (f (fs w)). exact H. Qed.

Lemma one_new_resource (p : string) : keeps_one_client (new_resource p).
Proof. intros w H. unfold new_resource. destruct (resource_init p); exact H. Qed.

Lemma one_gettempdir : keeps_one_client gettempdir.
Proof. intros w H. exact H. Qed.

Lemma one_datetime_now : keeps_one_client datetime_now.
Proof. intros w H. exact H. Qed.

(** Building a client and storing it go together. *)
Lemma one_get_api_client : keeps_one_client get_api_client.
Proof.
  intros w H. unfold one_client in *.
  destruct (api_client w) as [c|] eqn:Hc.
  - rewrite (Facts.get_api_client_cached w c Hc). cbn [snd]. rewrite Hc. exact H.
  - destruct (truthy (environ w !! "HEYGEN_API_KEY")) eqn:Hk.
    + destruct (environ w !! "HEYGEN_API_KEY") as [[|a k]|] eqn:He; try discriminate Hk.
      destruct (client_init (String a k)) as [e|] eqn:Hi.
      * unfold get_api_client, getenv, new_client, bind, log, ret, raise.
        cbn [api_client environ next_oid remote fs tempdir clock trace].
        rewrite Hc. cbn [api_client environ next_oid remote fs tempdir clock trace].
        rewrite He. cbn [truthy negb default from_option id]. rewrite Hi.
        cbn [snd api_client trace]. rewrite clients_built_app, H, Hc. reflexivity.
      * rewrite (More.get_api_client_first w (String a k) Hc He ltac:(discriminate) Hi).
        cbn [snd api_client trace]. rewrite clients_built_app, H. reflexivity.
    + rewrite (Facts.get_api_client_no_key w Hc Hk).
      cbn [snd api_client trace]. rewrite clients_built_app, H. reflexivity.
Qed.

Create HintDb one_client discriminated.
Hint Resolve one_ret one_raise one_on_remote one_on_remote_fs one_on_fs
  one_get_api_client one_new_resource one_gettempdir one_datetime_now : one_client.

Ltac one_client :=
  repeat first
    [ solve [auto with one_client]
    | solve [apply one_log; reflexivity]
    | apply one_fmap | apply one_try | apply one_bind | apply one_if
    | intro ].

Lemma one_invoke (call : ToolCall) : keeps_one_client (invoke call).
Proof.
  destruct call; cbn [invoke];
    unfold account_credits, account_credits_body, call_get_remaining_credits,
      list_available_voices, list_available_voices_body, call_get_voices,
      Server.list_avatar_groups, list_avatar_groups_body, call_list_avatar_groups,
      list_avatars_in_group, list_avatars_in_group_body, call_get_avatars_in_group,
      create_video, create_video_body, call_generate_avatar_video,
      check_video_status, check_video_status_body, call_get_video_status,
      wait_for_video, wait_for_video_body, call_wait_for_video_completion,
      Server.download_video, download_video_body, call_download_video,
      destination, generated_path, mkdir;
    one_client.
Qed.

(** X15. At most one client is ever built: if the trace shows a client
    being built exactly when the module global holds one (as in a freshly
    started server), this is still so after any number of tool invocations
    and changes of the environment and the clock, and the trace never shows
    more than one. *)
Theorem at_most_one_client_is_built (w w' : World) :
  one_client w ->
  steps w w' ->
  one_client w' /\ clients_built (trace w') <= 1.
Proof.
  intros H Hs.
  assert (Hone : one_client w').
  { induction Hs as [|w1 w2 w3 Hstep _ IH]; [exact H|].
    apply IH. inversion Hstep; subst.
    - apply one_invoke. exact H.
    - exact H.
    - exact H. }
  split; [exact Hone|]. unfold one_client in Hone. rewrite Hone.
  destruct (api_client w'); lia.
Qed.

End OneClient.

Section SameClient.
Context {deps : Deps}.

Lemma co_ret {A} (c : HeyGenApiClient) (a : A) : calls_only_on c (ret a).
Proof. intros w H. exists []. rewrite app_nil_r. auto. Qed.

Lemma co_raise {A} (c : HeyGenApiClient) (e : Exc) : calls_only_on c (@raise World A e).
Proof. intros w H. exists []. rewrite app_nil_r. auto. Qed.

Lemma co_bind {A B} (c : HeyGenApiClient) (m : M World A) (k : A -> M World B) :
  calls_only_on c m -> (forall a, calls_only_on c (k a)) -> calls_only_on c (bind m k).
Proof.
  intros Hm Hk w H. unfold bind. destruct (Hm w H) as (l & Ht & Hl & Hc).
  destruct (m w) as [[a|e] w1]; cbn [snd] in *.
  - destruct (Hk a w1 Hc) as (l' & Ht' & Hl' & Hc').
    exists (l ++ l'). rewrite Ht', Ht, app_assoc.
    split; [reflexivity|]. split; [apply Forall_app; auto|exact Hc'].
  - exists l. auto.
Qed.

Lemma co_try {A} (c : HeyGenApiClient) (m : M World A) (h : Exc -> M World A) :
  calls_only_on c m -> (forall e, calls_only_on c (h e)) -> calls_only_on c (try_except m h).
Proof.
  intros Hm Hh w H. unfold try_except. destruct (Hm w H) as (l & Ht & Hl & Hc).
  destruct (m w) as [[a|e] w1]; cbn [snd] in *.
  - exists l. auto.
  - destruct (Hh e w1 Hc) as (l' & Ht' & Hl' & Hc').
    exists (l ++ l'). rewrite Ht', Ht, app_assoc.
    split; [reflexivity|]. split; [apply Forall_app; auto|exact Hc'].
Qed.

Lemma co_if {A} (c : HeyGenApiClient) (b : bool) (m1 m2 : M World A) :
  calls_only_on c m1 -> calls_only_on c m2 -> calls_only_on c (if b then m1 else m2).
Proof. destruct b; auto. Qed.

Lemma co_log (c : HeyGenApiClient) (e : Event) : call_on c e -> calls_only_on c (log e).
Proof. intros He w H. exists [e]. cbn. auto. Qed.

Lemma co_on_remote {A} (c : HeyGenApiClient) (f : Remote -> outcome A * Remote) :
  calls_only_on c (on_remote f).
Proof.
  intros w H. exists []. unfold on_remote. destruct (f (remote w)).
  rewrite app_nil_r. auto.
Qed.

Lemma co_on_remote_fs {A} (c : HeyGenApiClient)
    (f : Remote * FileSystem -> outcome A * (Remote * FileSystem)) :
  calls_only_on c (on_remote_fs f).
Proof.
  intros w H. exists []. unfold on_remote_fs. destruct (f (remote w, fs w)) as [o [r f']].
  rewrite app_nil_r. auto.
Qed.

Lemma co_on_fs {A} (c : HeyGenApiClient) (f : FileSystem -> outcome A * FileSystem) :
  calls_only_on c (on_fs f).
Proof.
  intros w H. exists []. unfold on_fs. destruct (f (fs w)). rewrite app_nil_r. auto.
Qed.

Lemma co_new_resource (c : HeyGenApiClient) (p : string) : calls_only_on c (new_resource p).
Proof. unfold new_resource. destruct (resource_init p); [apply co_raise|apply co_ret]. Qed.

Lemma co_gettempdir (c : HeyGenApiClient) : calls_only_on c gettempdir.
Proof. intros w H. exists []. rewrite app_nil_r. auto. Qed.

Lemma co_datetime_now (c : HeyGenApiClient) : calls_only_on c datetime_now.
Proof. intros w H. exists []. rewrite app_nil_r. auto. Qed.

Create HintDb calls_on discriminated.
Hint Resolve co_ret co_raise co_on_remote co_on_remote_fs co_on_fs
  co_new_resource co_gettempdir co_datetime_now : calls_on.

Ltac calls_on :=
  repeat first
    [ solve [auto with calls_on]
    | solve [apply co_log; cbn; auto]
    | apply co_try | apply co_bind | apply co_if
    | intro ].

(** What [get_api_client] leaves behind: the client it returns is in the
    module global and the calls made so far were made on it; when it raises,
    there is still no client and no call has been added. *)
Lemma get_api_client_keeps_calls (w : World) :
  calls_go_to_the_client w ->
  match get_api_client w with
  | (Return c, w1) => api_client w1 = Some c /\ calls_go_to_the_client w1
  | (Raise e, w1) => calls_go_to_the_client w1
  end.
Proof.
  intros H.
  destruct (api_client w) as [c|] eqn:Hc.
  - rewrite (Facts.get_api_client_cached w c Hc). auto.
  - assert (Hno : forall c m l, (forall e, In e l -> e = EvGetenv "HEYGEN_API_KEY"
                                           \/ exists c', e = EvNewClient c') ->
                     In (EvCall c m) (trace w ++ l) -> False).
    { intros c m l Hl Hin. apply in_app_or in Hin as [Hin|Hin].
      - apply H in Hin. congruence.
      - apply Hl in Hin as [Hin|[c' Hin]]; discriminate Hin. }
    destruct (truthy (environ w !! "HEYGEN_API_KEY")) eqn:Hk.
    + destruct (environ w !! "HEYGEN_API_KEY") as [[|a k]|] eqn:He; try discriminate Hk.
      destruct (client_init (String a k)) as [e|] eqn:Hi.
      * unfold get_api_client, getenv, new_client, bind, log, ret, raise.
        cbn [api_client environ next_oid remote fs tempdir clock trace].
        rewrite Hc. cbn [api_client environ next_oid remote fs tempdir clock trace].
        rewrite He. cbn [truthy negb default from_option id]. rewrite Hi.
        intros c m Hin. exfalso. cbn [trace] in Hin.
        eapply (Hno c m); [|exact Hin]. intros e0 [<-|[]]. auto.
      * rewrite (More.get_api_client_first w (String a k) Hc He ltac:(discriminate) Hi).
        split; [reflexivity|]. intros c m Hin. exfalso. cbn [trace] in Hin.
        eapply (Hno c m); [|exact Hin]. intros e0 [<-|[<-|[]]]; eauto.
    + rewrite (Facts.get_api_client_no_key w Hc Hk).
      intros c m Hin. exfalso. cbn [trace] in Hin.
      eapply (Hno c m); [|exact Hin]. intros e0 [<-|[]]. auto.
Qed.

Lemma tool_keeps_calls {A} (rest : HeyGenApiClient -> M World A) (f : Exc -> A) :
  (forall c, calls_only_on c (rest c)) ->
  forall w, calls_go_to_the_client w ->
    calls_go_to_the_client
      (try_except (bind get_api_client rest) (fun e => ret (f e)) w).2.
Proof.
  intros Hrest w H. pose proof (get_api_client_keeps_calls w H) as Hg.
  unfold try_except, bind at 1.
  destruct (get_api_client w) as [[c|e] w1]; [|exact Hg].
  destruct Hg as (Hc & H1).
  destruct (Hrest c w1 Hc) as (l & Ht & Hl & Hc').
  assert (Hfin : forall w2, trace w2 = trace w1 ++ l -> api_client w2 = Some c ->
                            calls_go_to_the_client w2).
  { intros w2 Ht2 Hc2 c' m Hin. rewrite Ht2 in Hin. rewrite Hc2.
    apply in_app_or in Hin as [Hin|Hin].
    - rewrite <- Hc. apply H1 in Hin. exact Hin.
    - rewrite Forall_forall in Hl. apply list_elem_of_In, Hl in Hin. cbn in Hin.
      congruence. }
  destruct (rest c w1) as [[a|e] w2]; cbn [snd] in *; apply Hfin; assumption.
Qed.

Lemma invoke_keeps_calls (call : ToolCall) (w : World) :
  calls_go_to_the_client w -> calls_go_to_the_client (invoke call w).2.
Proof.
  intros H.
  assert (Hf : forall A B (f : A -> B) (m : M World A),
             (fmap_M f m w).2 = (m w).2).
  { intros A B f m. unfold fmap_M, bind, ret. destruct (m w) as [[a|e] w1]; reflexivity. }
  destruct call; cbn [invoke]; rewrite Hf;
    unfold account_credits, account_credits_body, call_get_remaining_credits,
      list_available_voices, list_available_voices_body, call_get_voices,
      Server.list_avatar_groups, list_avatar_groups_body, call_list_avatar_groups,
      list_avatars_in_group, list_avatars_in_group_body, call_get_avatars_in_group,
      create_video, create_video_body, call_generate_avatar_video,
      check_video_status, check_video_status_body, call_get_video_status,
      wait_for_video, wait_for_video_body, call_wait_for_video_completion,
      Server.download_video, download_video_body, call_download_video,
      destination, generated_path, mkdir;
    cbv zeta; (apply tool_keeps_calls; [|exact H]); intros c; calls_on.
Qed.

(** X16. Every call goes to the one client: if all client calls in the
    trace were made on the client held in the module global (as in a
    freshly started server, where there are none), this is still so after
    any number of tool invocations and changes of the environment and the
    clock. *)
Theorem calls_stay_on_the_client (w w' : World) :
  calls_go_to_the_client w ->
  steps w w' ->
  calls_go_to_the_client w'.
Proof.
  intros H Hs. induction Hs as [|w1 w2 w3 Hstep _ IH]; [exact H|].
  apply IH. inversion Hstep; subst.
  - apply invoke_keeps_calls. exact H.
  - exact H.
  - exact H.
Qed.

End SameClient.

(** ** Runs on the scripted service *)

Section MoreRuns.
Import SpecClient Mock.

Lemma empty_key_is_a_tool_error_witness :
  let w := @mkWorld done_deps None {[ "HEYGEN_API_KEY" := EmptyString ]} 0 idle disk
             "/tmp" noon [] in
  @invoke done_deps (CheckVideoStatus "abc") w
  = (Return (@error_result done_deps (CheckVideoStatus "abc")
               "HEYGEN_API_KEY environment variable not set."),
     @mkWorld done_deps None {[ "HEYGEN_API_KEY" := EmptyString ]} 0 idle disk
       "/tmp" noon [EvGetenv "HEYGEN_API_KEY"]).
Proof.
  intros w.
  apply (@empty_key_is_a_tool_error done_deps (CheckVideoStatus "abc") w); reflexivity.
Defined.

Lemma failed_resolution_is_not_cached_witness :
  let w := @mkWorld done_deps None ∅ 0 idle disk "/tmp" noon [] in
  let w' := (@get_api_client done_deps w).2 in
  api_client w' = None /\ environ w' = environ w /\ next_oid w' = next_oid w.
Proof.
  intros w w'.
  apply (@failed_resolution_is_not_cached done_deps w w'
           (ValueError "HEYGEN_API_KEY environment variable not set.")).
  reflexivity.
Defined.

Lemma resolution_recovers_witness :
  let w := @mkWorld done_deps None ∅ 0 idle disk "/tmp" noon [] in
  let w1 := (@get_api_client done_deps w).2 in
  let w2 := set_environ (<["HEYGEN_API_KEY" := "secret"]> (environ w1)) w1 in
  (@get_api_client done_deps w).1
  = Raise (ValueError "HEYGEN_API_KEY environment variable not set.")
  /\ (@get_api_client done_deps w2).1 = Return the_client
  /\ api_client (@get_api_client done_deps w2).2 = Some the_client.
Proof.
  apply (@resolution_recovers done_deps
           (@mkWorld done_deps None ∅ 0 idle disk "/tmp" noon []) "secret");
    try reflexivity. discriminate.
Defined.

Lemma main_api_key_wins_witness :
  let args := mkArgs (Some "from-cli") "127.0.0.1" 8000 false in
  let w := start done_deps idle in
  environ w !! "HEYGEN_API_KEY" = Some "secret"
  /\ (@main done_deps args w).1 = Return (Run, [])
  /\ environ (@main done_deps args w).2 = <["HEYGEN_API_KEY" := "from-cli"]> (environ w)
  /\ forall name, name <> "HEYGEN_API_KEY" ->
                  environ (@main done_deps args w).2 !! name = environ w !! name.
Proof.
  intros args w. split; [reflexivity|].
  apply (@main_api_key_wins done_deps args w "from-cli"); [reflexivity|discriminate].
Defined.

Lemma main_then_first_client_witness :
  let args := mkArgs (Some "from-cli") "127.0.0.1" 8000 false in
  let w := start done_deps idle in
  let w' := (@main done_deps args w).2 in
  exists k,
    k <> EmptyString
    /\ environ w' !! "HEYGEN_API_KEY" = Some k
    /\ (truthy (arg_api_key args) = true -> arg_api_key args = Some k)
    /\ (truthy (arg_api_key args) = false -> environ w !! "HEYGEN_API_KEY" = Some k)
    /\ (@client_init done_deps k = None ->
        (@get_api_client done_deps w').1 = Return (mkClient (next_oid w) k)).
Proof.
  intros args w w'.
  apply (@main_then_first_client done_deps args w w' []); reflexivity.
Defined.

Lemma tools_first_call_witness :
  let w := start busy_deps idle in
  let w1 := (@get_api_client busy_deps w).2 in
  let call := WaitForVideo "abc" None None in
  exists rest,
    trace (@invoke busy_deps call w).2
    = trace w1 ++ EvCall the_client (CWaitForVideoCompletion "abc" 60 10) :: rest
    /\ (is_download call = false ->
        rest = [] /\ fs (@invoke busy_deps call w).2 = fs w1
        /\ api_client (@invoke busy_deps call w).2 = api_client w1).
Proof.
  intros w w1 call.
  apply (@tools_first_call busy_deps call w w1 the_client). reflexivity.
Defined.

Lemma explicit_path_is_passed_on_witness :
  let w := start done_deps idle in
  let w1 := (@get_api_client done_deps w).2 in
  let r' := mkWire 1 [Poll "abc" (Return (completed "abc" "https://x/y.mp4"))] in
  let res := @Server.download_video done_deps "abc" (Some "out/a.mp4") w in
  trace res.2 = trace w1 ++ [EvCall the_client (CGetVideoStatus "abc");
                             EvCall the_client (CDownloadVideo "https://x/y.mp4" "out/a.mp4")]
  /\ (remote res.2, fs res.2)
     = (@ApiClient.download_video done_deps the_client "https://x/y.mp4" "out/a.mp4"
          (r', fs w1)).2.
Proof.
  intros w w1 r'.
  apply (@explicit_path_is_passed_on done_deps "abc" "out/a.mp4" w w1 the_client
           (completed "abc" "https://x/y.mp4") r'); try reflexivity. discriminate.
Defined.

Lemma empty_path_is_generated_witness :
  let w := start done_deps idle in
  let w1 := (@get_api_client done_deps w).2 in
  let dir := temp_dir_of "/tmp" in
  trace (@Server.download_video done_deps "abc" (Some EmptyString) w).2
  = trace w1 ++ [EvCall the_client (CGetVideoStatus "abc"); EvMkdir dir;
                 EvCall the_client
                   (CDownloadVideo "https://x/y.mp4"
                      (to_str (truediv dir (file_name_of noon "abc"))))]
  /\ @Server.download_video done_deps "abc" (Some EmptyString) w
     = @Server.download_video done_deps "abc" None w.
Proof.
  intros w w1 dir.
  apply (@empty_path_is_generated done_deps "abc" (Some EmptyString) w w1 the_client
           (completed "abc" "https://x/y.mp4")
           (mkWire 1 [Poll "abc" (Return (completed "abc" "https://x/y.mp4"))]));
    reflexivity.
Defined.

Lemma blocked_directory_is_an_error_witness :
  let blocked := mkFs ["home"] {[ ["home"]; ["tmp"] ]} {[ ["tmp"; "heygen_videos"] := [] ]} in
  let w := @mkWorld done_deps None key_set 0 idle blocked "/tmp" noon [] in
  let w1 := (@get_api_client done_deps w).2 in
  let dir := temp_dir_of "/tmp" in
  let res := @Server.download_video done_deps "abc" None w in
  exists e,
    (mkdir_exist_ok dir (fs w1)).1 = Raise e
    /\ res.1 = Return (generate_error (str e))
    /\ fs res.2 = fs w1
    /\ trace res.2 = trace w1 ++ [EvCall the_client (CGetVideoStatus "abc"); EvMkdir dir].
Proof.
  intros blocked w w1 dir.
  apply (@blocked_directory_is_an_error done_deps "abc" None w w1 the_client
           (completed "abc" "https://x/y.mp4")
           (mkWire 1 [Poll "abc" (Return (completed "abc" "https://x/y.mp4"))]));
    try reflexivity.
  left. reflexivity.
Defined.

Lemma generated_directory_is_reused_witness :
  let w := start done_deps idle in
  let w' := (@generated_path done_deps "abc" w).2 in
  is_dir (fs w) ["tmp"; "heygen_videos"] = false
  /\ (@generated_path done_deps "xyz" w').1
     = Return (truediv (temp_dir_of (tempdir w)) (file_name_of (clock w') "xyz"))
  /\ fs (@generated_path done_deps "xyz" w').2 = fs w'.
Proof.
  intros w w'. split; [reflexivity|].
  apply (@generated_directory_is_reused done_deps "abc" "xyz" w w'
           (truediv (temp_dir_of "/tmp") (file_name_of noon "abc"))); reflexivity.
Defined.


Lemma tools_pass_the_answer_on_witness :
  let w := start done_deps idle in
  let w1 := (@get_api_client done_deps w).2 in
  let call := CheckVideoStatus "abc" in
  (@invoke done_deps call w).1
  = Return (match (@client_answer done_deps call the_client (remote w1)).1 with
            | Return r => r
            | Raise e => @error_result done_deps call (str e)
            end)
  /\ remote (@invoke done_deps call w).2
     = (@client_answer done_deps call the_client (remote w1)).2.
Proof.
  intros w w1 call.
  apply (@tools_pass_the_answer_on done_deps call w w1 the_client); reflexivity.
Defined.

Lemma download_status_failure_witness :
  let down := mkExc "HTTPStatusError" "Server error '500 Internal Server Error'" in
  let deps := client_deps (fun _ _ => Raise down) "abc123" None in
  let w := start deps idle in
  let w1 := (@get_api_client deps w).2 in
  let res := @Server.download_video deps "abc" None w in
  res.1 = Return (generate_error (str down))
  /\ fs res.2 = fs w1
  /\ trace res.2 = trace w1 ++ [EvCall the_client (CGetVideoStatus "abc")].
Proof.
  intros down deps w w1.
  apply (@download_status_failure deps "abc" None w w1 the_client down
           (mkWire 1 [Poll "abc" (Raise down)])); reflexivity.
Defined.

Lemma at_most_one_client_is_built_witness :
  let w := start done_deps idle in
  let w' := (@invoke done_deps (CheckVideoStatus "abc")
               (@invoke done_deps AccountCredits w).2).2 in
  @one_client done_deps w' /\ clients_built (trace w') <= 1.
Proof.
  intros w w'.
  apply (@at_most_one_client_is_built done_deps w w').
  - reflexivity.
  - eapply steps_cons; [apply (step_invoke AccountCredits)|].
    eapply steps_cons; [apply (step_invoke (CheckVideoStatus "abc"))|]. apply steps_refl.
Defined.

Lemma calls_stay_on_the_client_witness :
  let w := start done_deps idle in
  let w' := (@invoke done_deps (CheckVideoStatus "abc")
               (@invoke done_deps AccountCredits w).2).2 in
  @calls_go_to_the_client done_deps w'.
Proof.
  intros w w'.
  apply (@calls_stay_on_the_client done_deps w w').
  - intros c m [].
  - eapply steps_cons; [apply (step_invoke AccountCredits)|].
    eapply steps_cons; [apply (step_invoke (CheckVideoStatus "abc"))|]. apply steps_refl.
Defined.

End MoreRuns.

End More.
